(** * Esonero_RETI_UDP: the password service over UDP

    A shallow embedding of the client's validators
    (UDP_client/src/libs/password/password.c), the server's generators
    (UDP_server/src/libs/password/password.c), the protocol records
    (libs/protocol/protocol.h) and the receive/handle/send steps of
    UDP_client.c and UDP_server.c, with the properties of the
    specification stated over them.

    Conventions.
    - A [char] is an [ascii]; an [int] is a [Z].  [int_of_char] is the
      value of the byte and [char_of_int] the conversion back, which keeps
      the low eight bits.
    - A [char *] is the list of the bytes of the array it points to.  A
      read or write past the end of that list is undefined behaviour in C
      and is [None] here.
    - The hidden state of [rand()] is an explicit [rand_state]. *)

From Stdlib Require Import ZArith Ascii String List Lia Bool.
From stdpp Require Import base option list.

Local Open Scope Z_scope.

(* ===================================================================== *)
(** * Characters and the C library                                        *)
(* ===================================================================== *)

Module C.

Definition int_of_char (c : ascii) : Z := Z.of_N (N_of_ascii c).

Definition char_of_int (z : Z) : ascii := ascii_of_N (Z.to_N (z mod 256)).

(** The terminator ['\0']. *)
Definition NUL : ascii := Ascii.zero.

Definition INT_MAX : Z := 2147483647.
Definition INT_MIN : Z := -2147483648.

(** ** <ctype.h>, "C" locale.  The functions take and return [int]. *)

Definition isdigit (c : Z) : bool :=
  (int_of_char "0" <=? c) && (c <=? int_of_char "9").

Definition isupper (c : Z) : bool :=
  (int_of_char "A" <=? c) && (c <=? int_of_char "Z").

Definition isspace (c : Z) : bool :=
  (c =? int_of_char " ") || ((9 <=? c) && (c <=? 13)).

Definition tolower (c : Z) : Z :=
  if isupper c then c + (int_of_char "a" - int_of_char "A") else c.

(** ** <string.h> *)

(** A string literal is the array of its characters and a terminator. *)
Definition literal (s : string) : list ascii :=
  list_ascii_of_string s ++ [NUL].

(** [strchr s c]: the characters are compared with [c] one by one, the
    terminator included, so that [strchr s '\0'] finds the terminator.
    The result is [Some (Some i)] for a pointer to [s[i]],
    [Some None] for [NULL]. *)
Fixpoint strchr_from (i : nat) (s : list ascii) (c : ascii) : option (option nat) :=
  match s with
  | [] => None
  | x :: s' =>
      if Ascii.eqb x c then Some (Some i)
      else if Ascii.eqb x NUL then Some None
      else strchr_from (S i) s' c
  end.

Definition strchr (s : list ascii) (c : ascii) : option (option nat) :=
  strchr_from 0 s c.

(** ** <stdlib.h>: atoi *)

(** The digits are accumulated in base ten up to the first character that
    is not a digit. *)
Fixpoint atoi_digits (acc : Z) (p : list ascii) : option Z :=
  match p with
  | [] => None
  | c :: p' =>
      if isdigit (int_of_char c)
      then atoi_digits (10 * acc + (int_of_char c - int_of_char "0")) p'
      else Some acc
  end.

(** An optional sign comes before the digits. *)
Definition atoi_sign (p : list ascii) : option Z :=
  match p with
  | [] => None
  | c :: p' =>
      if Ascii.eqb c "-" then Z.opp <$> atoi_digits 0 p'
      else if Ascii.eqb c "+" then atoi_digits 0 p'
      else atoi_digits 0 p
  end.

(** Leading white space is skipped. *)
Fixpoint atoi_space (p : list ascii) : option Z :=
  match p with
  | [] => None
  | c :: p' => if isspace (int_of_char c) then atoi_space p' else atoi_sign p
  end.

(** ISO C: "if the value of the result cannot be represented, the
    behavior is undefined". *)
Definition atoi (nptr : list ascii) : option Z :=
  match atoi_space nptr with
  | Some v => if (INT_MIN <=? v) && (v <=? INT_MAX) then Some v else None
  | None => None
  end.

(** ** <stdlib.h>: rand and srand *)

(** The state behind [rand()]: the results still to come, which are
    non-negative [int]s, and the number of calls of [srand] so far. *)
Record rand_state := {
  rs_stream : nat -> N;
  rs_srand_calls : nat
}.

Definition rand (s : rand_state) : Z * rand_state :=
  (Z.of_N (rs_stream s O),
   {| rs_stream := fun n => rs_stream s (S n);
      rs_srand_calls := rs_srand_calls s |}).

(** [srand(seed)] restarts the sequence at the one the seed selects; the
    sequence itself is left to the implementation and is the argument. *)
Definition srand (seeded : nat -> N) (s : rand_state) : rand_state :=
  {| rs_stream := seeded; rs_srand_calls := S (rs_srand_calls s) |}.

(** ** Arrays of [char] *)

Definition sizeof (a : list ascii) : Z := Z.of_nat (List.length a).

(** [a[i]] read. *)
Definition load (a : list ascii) (i : Z) : option ascii :=
  if (0 <=? i) && (i <? sizeof a) then a !! Z.to_nat i else None.

(** [a[i] = c]. *)
Definition store (a : list ascii) (i : Z) (c : ascii) : option (list ascii) :=
  if (0 <=? i) && (i <? sizeof a) then Some (<[Z.to_nat i := c]> a) else None.

(** The string an array holds: the characters before the first
    terminator. *)
Fixpoint c_str (a : list ascii) : option (list ascii) :=
  match a with
  | [] => None
  | c :: a' => if Ascii.eqb c NUL then Some [] else (c ::.) <$> c_str a'
  end.

End C.

(* ===================================================================== *)
(** * The client's validators: UDP_client/src/libs/password/password.c    *)
(* ===================================================================== *)

Module Client.
Import C.

(** [return tolower(type) != tolower(type_for_ending);] *)
Definition keep_generating (type type_for_ending : ascii) : bool :=
  negb (tolower (int_of_char type) =? tolower (int_of_char type_for_ending)).

(** [return strchr(allowed_type, type) != NULL;] *)
Definition control_type (allowed_type : list ascii) (type : ascii) : option bool :=
  match strchr allowed_type type with
  | Some (Some _) => Some true
  | Some None => Some false
  | None => None
  end.

(** The [for] loop of [control_length]: [Some false] is the early
    [return false], [Some true] the normal exit at the terminator. *)
Fixpoint control_length_loop (length : list ascii) : option bool :=
  match length with
  | [] => None
  | c :: rest =>
      if Ascii.eqb c NUL then Some true
      else if negb (isdigit (int_of_char c)) then Some false
      else control_length_loop rest
  end.

Definition control_length (length : list ascii) (min_length max_length : Z)
  : option bool :=
  match control_length_loop length with
  | None => None
  | Some false => Some false
  | Some true =>
      match atoi length with
      | None => None
      | Some numerical_length =>
          Some ((numerical_length >=? min_length) && (numerical_length <=? max_length))
      end
  end.

End Client.

(* ===================================================================== *)
(** * The server's generators: UDP_server/src/libs/password/password.c    *)
(* ===================================================================== *)

Module Server.
Import C.

(** [typedef enum { NUMERIC, ALPHA, MIXED, SECURE, UNAMBIGUOUS } PasswordType;]
    An enum is an [int] in C, so values outside the five are possible. *)
Definition PasswordType := Z.
Definition NUMERIC : PasswordType := 0.
Definition ALPHA : PasswordType := 1.
Definition MIXED : PasswordType := 2.
Definition SECURE : PasswordType := 3.
Definition UNAMBIGUOUS : PasswordType := 4.

(** One character of a password: it may call [rand] and may read out of
    an array. *)
Definition draw := rand_state -> option (ascii * rand_state).

(** [for (int i = 0; i < length; i++) { password[i] = <d>; }], with [n]
    iterations left. *)
Fixpoint fill (d : draw) (n : nat) (i : Z) (password : list ascii) (s : rand_state)
  : option (list ascii * rand_state) :=
  match n with
  | O => Some (password, s)
  | S n' =>
      match d s with
      | None => None
      | Some (c, s1) =>
          match store password i c with
          | None => None
          | Some password1 => fill d n' (i + 1) password1 s1
          end
      end
  end.

(** The loop followed by [password[length] = '\0';]. *)
Definition generate (d : draw) (password : list ascii) (length : Z) (s : rand_state)
  : option (list ascii * rand_state) :=
  match fill d (Z.to_nat length) 0 password s with
  | None => None
  | Some (password1, s1) =>
      match store password1 length NUL with
      | None => None
      | Some password2 => Some (password2, s1)
      end
  end.

(** ['0' + rand() % 10] *)
Definition draw_numeric : draw := fun s =>
  let (r, s1) := rand s in
  Some (char_of_int (int_of_char "0" + Z.rem r 10), s1).

Definition generate_numeric := generate draw_numeric.

(** ['a' + rand() % 26] *)
Definition draw_alpha : draw := fun s =>
  let (r, s1) := rand s in
  Some (char_of_int (int_of_char "a" + Z.rem r 26), s1).

Definition generate_alpha := generate draw_alpha.

(** [(rand() % 2) ? 'a' + rand() % 26 : '0' + rand() % 10] *)
Definition draw_mixed : draw := fun s =>
  let (r, s1) := rand s in
  if negb (Z.rem r 2 =? 0)
  then let (r', s2) := rand s1 in
       Some (char_of_int (int_of_char "a" + Z.rem r' 26), s2)
  else let (r', s2) := rand s1 in
       Some (char_of_int (int_of_char "0" + Z.rem r' 10), s2).

Definition generate_mixed := generate draw_mixed.

(** [charset[rand() % (sizeof(charset) - 1)]] *)
Definition draw_charset (charset : list ascii) : draw := fun s =>
  let (r, s1) := rand s in
  match load charset (Z.rem r (sizeof charset - 1)) with
  | None => None
  | Some c => Some (c, s1)
  end.

Definition secure_charset : list ascii :=
  literal "abcdefghijklmnopqrstuvwxyzABCDEFGHIJKLMNOPQRSTUVWXYZ0123456789!@#$%^&*()".

Definition generate_secure := generate (draw_charset secure_charset).

Definition unambiguous_charset : list ascii :=
  literal "abcdefghjkmnpqrtuvwxyACDEFGHJKLMNPQRTUVWXY34679!@#$%^&*()".

Definition generate_unambiguous := generate (draw_charset unambiguous_charset).

(** The [switch] has the five cases and no [default]. *)
Definition generate_password (password : list ascii) (type : PasswordType)
  (length : Z) (s : rand_state) : option (list ascii * rand_state) :=
  if type =? NUMERIC then generate_numeric password length s
  else if type =? ALPHA then generate_alpha password length s
  else if type =? MIXED then generate_mixed password length s
  else if type =? SECURE then generate_secure password length s
  else if type =? UNAMBIGUOUS then generate_unambiguous password length s
  else Some (password, s).

End Server.

(* ===================================================================== *)
(** * The records on the wire: libs/protocol/protocol.h                   *)
(* ===================================================================== *)

Module Protocol.
Import C.

Definition BUFFER_SIZE : nat := 1024.
Definition MAX_PASSWORD_LENGTH : Z := 32.
Definition MIN_PASSWORD_LENGTH : Z := 6.

(** [typedef struct { char type; char length[BUFFER_SIZE]; } PasswordRequest;] *)
Record PasswordRequest := {
  req_type : ascii;
  req_length : list ascii
}.

(** [typedef struct { char password[MAX_PASSWORD_LENGTH + 1]; } PasswordResponse;] *)
Record PasswordResponse := {
  resp_password : list ascii
}.

(** The arrays have the sizes the declarations give them. *)
Definition request_wf (r : PasswordRequest) : Prop :=
  List.length (req_length r) = BUFFER_SIZE.

Definition response_wf (r : PasswordResponse) : Prop :=
  sizeof (resp_password r) = MAX_PASSWORD_LENGTH + 1.

(** The bytes of the objects: the members in order, and no padding
    between members of type [char]. *)
Definition request_bytes (r : PasswordRequest) : list ascii :=
  req_type r :: req_length r.

Definition request_of_bytes (b : list ascii) : PasswordRequest :=
  match b with
  | [] => {| req_type := NUL; req_length := [] |}
  | t :: l => {| req_type := t; req_length := l |}
  end.

Definition response_bytes (r : PasswordResponse) : list ascii :=
  resp_password r.

Definition response_of_bytes (b : list ascii) : PasswordResponse :=
  {| resp_password := b |}.

Definition sizeof_PasswordRequest : nat := S BUFFER_SIZE.
Definition sizeof_PasswordResponse : nat := Z.to_nat (MAX_PASSWORD_LENGTH + 1).

(** ** The socket calls, as the programs use them *)

(** What the network does at a [recvfrom]: the call fails, or a datagram
    with some payload is there. *)
Inductive recv_outcome :=
  | RecvError
  | RecvDatagram (payload : list ascii).

(** [recvfrom(socket, buf, len, 0, ...)] on a datagram socket (the POSIX
    branch of the programs): the payload is copied to the start of [buf],
    what does not fit in [len] bytes is dropped, and the number of bytes
    copied is returned; [-1] on failure. *)
Definition recvfrom (buf : list ascii) (len : nat) (net : recv_outcome)
  : Z * list ascii :=
  match net with
  | RecvError => (-1, buf)
  | RecvDatagram payload =>
      let got := take len payload in
      (Z.of_nat (List.length got), got ++ drop (List.length got) buf)
  end.

(** The payload of the datagram that [sendto(socket, buf, len, 0, ...)]
    hands to the network. *)
Definition sendto_payload (buf : list ascii) (len : nat) : list ascii :=
  take len buf.

End Protocol.

(* ===================================================================== *)
(** * UDP_client.c                                                        *)
(* ===================================================================== *)

Module ClientProgram.
Import C Protocol.

(** [send_request]: [sent] is what [sendto] returns. *)
Definition send_request (password_request : PasswordRequest) (sent : Z) : bool :=
  if negb (sent =? Z.of_nat sizeof_PasswordRequest) then false else true.

(** The datagram [send_request] emits. *)
Definition request_datagram (password_request : PasswordRequest) : list ascii :=
  sendto_payload (request_bytes password_request) sizeof_PasswordRequest.

(** [receive_response]: the flag returned and the record afterwards. *)
Definition receive_response (response_msg : PasswordResponse) (net : recv_outcome)
  : bool * PasswordResponse :=
  let (rcv_msg_size, mem) :=
    recvfrom (response_bytes response_msg) sizeof_PasswordResponse net in
  if rcv_msg_size <? 0 then (false, response_of_bytes mem)
  else (true, response_of_bytes mem).

End ClientProgram.

(* ===================================================================== *)
(** * UDP_server.c                                                        *)
(* ===================================================================== *)

Module ServerProgram.
Import C Server Protocol.

(** The [switch (tolower(request->type))] of [handle_password_request]. *)
Definition password_type_of (type : ascii) : PasswordType :=
  let t := tolower (int_of_char type) in
  if t =? int_of_char "n" then NUMERIC
  else if t =? int_of_char "a" then ALPHA
  else if t =? int_of_char "m" then MIXED
  else if t =? int_of_char "s" then SECURE
  else if t =? int_of_char "u" then UNAMBIGUOUS
  else NUMERIC.

Definition handle_password_request (request : PasswordRequest)
  (response : PasswordResponse) (s : rand_state)
  : option (PasswordResponse * rand_state) :=
  match atoi (req_length request) with
  | None => None
  | Some numerical_length =>
      let password_type := password_type_of (req_type request) in
      match generate_password (resp_password response) password_type
              numerical_length s with
      | None => None
      | Some (password, s') => Some ({| resp_password := password |}, s')
      end
  end.

(** [send_response]: [sent] is what [sendto] returns. *)
Definition send_response (response_msg : PasswordResponse) (sent : Z) : bool :=
  if negb (sent =? Z.of_nat sizeof_PasswordResponse) then false else true.

Definition response_datagram (response_msg : PasswordResponse) : list ascii :=
  sendto_payload (response_bytes response_msg) sizeof_PasswordResponse.

(** [receive_request]: the flag returned and the record afterwards. *)
Definition receive_request (request_msg : PasswordRequest) (net : recv_outcome)
  : bool * PasswordRequest :=
  let (rcv_msg_size, mem) :=
    recvfrom (request_bytes request_msg) sizeof_PasswordRequest net in
  if rcv_msg_size <? 0 then (false, request_of_bytes mem)
  else (true, request_of_bytes mem).

(** ** [main]: the [while (true)] loop *)

(** What one turn of the loop meets: the contents of the two locals
    [request] and [response], which are declared without initialiser, what
    the network does at [recvfrom], and what [sendto] returns. *)
Record turn := {
  turn_request : PasswordRequest;
  turn_response : PasswordResponse;
  turn_recv : recv_outcome;
  turn_sent : Z
}.

Definition EXIT_FAILURE : Z := 1.

(** The process after some turns: still in the loop, or returned from
    [main] with a status.  Both carry the datagrams sent, oldest first,
    and the state of [rand]. *)
Inductive process :=
  | Running (sent : list (list ascii)) (s : rand_state)
  | Exited (status : Z) (sent : list (list ascii)) (s : rand_state).

(** One turn of the loop; [None] when the turn has undefined behaviour. *)
Definition main_turn (t : turn) (sent : list (list ascii)) (s : rand_state)
  : option process :=
  let (received, request) := receive_request (turn_request t) (turn_recv t) in
  if negb received then Some (Exited EXIT_FAILURE sent s)
  else
    match handle_password_request request (turn_response t) s with
    | None => None
    | Some (response, s') =>
        if negb (send_response response (turn_sent t))
        then Some (Exited EXIT_FAILURE sent s')
        else Some (Running (sent ++ [response_datagram response]) s')
    end.

(** The loop over the turns the environment offers. *)
Fixpoint main_loop (turns : list turn) (sent : list (list ascii)) (s : rand_state)
  : option process :=
  match turns with
  | [] => Some (Running sent s)
  | t :: turns' =>
      match main_turn t sent s with
      | None => None
      | Some (Running sent' s') => main_loop turns' sent' s'
      | Some (Exited status sent' s') => Some (Exited status sent' s')
      end
  end.

(** [main], outside Windows (the [WIN32] blocks are not compiled).
    [created_socket] is what [socket] returns in [initialize_socket] and
    [bind_result] what [bind] returns: a negative value of either leaves
    [main] with EXIT_FAILURE before the loop.  Nothing touches [rand]
    before the loop; [start] is its state at process start.  What the
    server writes to its terminal is not kept in [process]. *)
Definition main (created_socket bind_result : Z) (start : rand_state)
  (turns : list turn) : option process :=
  if created_socket <? 0 then Some (Exited EXIT_FAILURE [] start)
  else if bind_result <? 0 then Some (Exited EXIT_FAILURE [] start)
  else main_loop turns [] start.

End ServerProgram.

(* ===================================================================== *)
(** * Coloured output: libs/utils/utils.c                                 *)
(* ===================================================================== *)

Module Utils.
Import C.

Notation "'let*' p ':=' e 'in' k" :=
  (match e with Some p => k | None => None end)
  (at level 10, p pattern, e at level 200, k at level 200, only parsing).

(** [typedef enum { BLACK, RED, GREEN, YELLOW, BLUE, MAGENTA, CYAN, WHITE,
    RESET } textColor;] *)
Definition textColor := Z.
Definition BLACK : textColor := 0.
Definition RED : textColor := 1.
Definition GREEN : textColor := 2.
Definition YELLOW : textColor := 3.
Definition BLUE : textColor := 4.
Definition MAGENTA : textColor := 5.
Definition CYAN : textColor := 6.
Definition WHITE : textColor := 7.
Definition RESET : textColor := 8.

(** ['\033'] and ['\n']. *)
Definition ESC : ascii := "027".
Definition LF : ascii := "010".

(** The literal ["\033" s]. *)
Definition escape (s : string) : list ascii := ESC :: literal s.

Definition generate_ansi_color_code (color : textColor) : list ascii :=
  if color =? BLACK then escape "[30m"
  else if color =? RED then escape "[31m"
  else if color =? GREEN then escape "[32m"
  else if color =? YELLOW then escape "[33m"
  else if color =? BLUE then escape "[34m"
  else if color =? MAGENTA then escape "[35m"
  else if color =? CYAN then escape "[36m"
  else if color =? WHITE then escape "[37m"
  else if color =? RESET then escape "[0m"
  else escape "[0m".

(** [printf("%s%s%s", a, b, c)]: the bytes written. *)
Definition printf_sss (a b c : list ascii) : option (list ascii) :=
  let* x := c_str a in let* y := c_str b in let* z := c_str c in Some (x ++ y ++ z).

(** [print_with_color]: the bytes written to the terminal; [text] is
    [None] for a [NULL] pointer. *)
Definition print_with_color (text : option (list ascii)) (color : textColor)
  : option (list ascii) :=
  match text with
  | None => Some []
  | Some t =>
      printf_sss (generate_ansi_color_code color) t (generate_ansi_color_code RESET)
  end.

(** A literal made of lines, each closed by ["\n"], and a last piece
    without. *)
Fixpoint text_lines (l : list string) (last : string) : string :=
  match l with
  | [] => last
  | s :: l' => (s ++ String LF (text_lines l' last))%string
  end.

Definition help_text : list ascii :=
  literal (text_lines
    ["";
     "Password Generator Help Menu";
     "Commands:";
     " h        : show this help menu";
     " n LENGTH : generate numeric password (digits only)";
     " a LENGTH : generate alphabetic password (lowercase letters)";
     " m LENGTH : generate mixed password (lowercase letters and numbers)";
     " s LENGTH : generate secure password (uppercase, lowercase, numbers, symbols)";
     " u LENGTH : generate unambiguous secure password (no similar-looking characters)";
     " q        : quit application";
     "";
     " LENGTH must be between 6 and 32 characters";
     "";
     " Ambiguous characters excluded in 'u' option:";
     " 0 O o (zero and letters O)";
     " 1 l I i (one and letters l, I)";
     " 2 Z z (two and letter Z)";
     " 5 S s (five and letter S)";
     " 8 B (eight and letter B)";
     "";
     "If the length is absent, a default value is used: 8";
     ""]%string "").

Definition show_help_menu : option (list ascii) :=
  print_with_color (Some help_text) CYAN.

Definition menu_text : list ascii :=
  literal (text_lines
    ["Insert the type of password and its length (between 6 and 32):";
     "  n: numeric password (only digits)";
     "  a: alphabetic password (only lowercase letters)";
     "  m: mixed password (lowercase letters and digits)";
     "  s: secure password (uppercase letters, lowercase letters, digits, and symbols)";
     "  u: unambiguous secure password (no similar-looking characters)";
     "  h: help menu";
     "  q: quit application"]%string "? ").

Definition show_password_menu : option (list ascii) :=
  print_with_color (Some menu_text) YELLOW.

End Utils.

(* ===================================================================== *)
(** * UDP_client.c: the dialogue with the user                            *)
(* ===================================================================== *)

Module ClientSession.
Import C Client Protocol ClientProgram Utils.

(** ** <stdio.h> and <string.h>, as [handle_user_input] uses them *)

Definition EOF : Z := -1.

(** White space in a [scanf] format, and before a [%s]: the white space
    of the input is passed over. *)
Fixpoint scan_space (p : list ascii) : option (list ascii) :=
  match p with
  | [] => None
  | c :: p' => if isspace (int_of_char c) then scan_space p' else Some p
  end.

(** [%s]: the characters up to the next white space or the end of the
    string, and what follows them. *)
Fixpoint scan_word (p : list ascii) : option (list ascii * list ascii) :=
  match p with
  | [] => None
  | c :: p' =>
      if Ascii.eqb c NUL || isspace (int_of_char c) then Some ([], p)
      else let* (w, rest) := scan_word p' in Some (c :: w, rest)
  end.

(** The characters [w] and a terminator written at the start of [dst]. *)
Definition write_string (dst w : list ascii) : option (list ascii) :=
  if (List.length w <? List.length dst)%nat
  then Some (w ++ NUL :: drop (S (List.length w)) dst)
  else None.

(** [strcpy(dst, src)]. *)
Definition strcpy (dst src : list ascii) : option (list ascii) :=
  let* w := c_str src in write_string dst w.

(** [sscanf(input, " %c %s %s", &password_request->type,
    password_request->length, input)]: the value returned and the record
    afterwards.  The end of the string before the first conversion gives
    [EOF]; before a later one, the count of the conversions done.  The
    third conversion would store into the very array that is being read,
    which ISO C leaves undefined. *)
Definition sscanf_type_length (input : list ascii) (password_request : PasswordRequest)
  : option (Z * PasswordRequest) :=
  let* p := scan_space input in
  match p with
  | [] => None
  | c :: p1 =>
      if Ascii.eqb c NUL then Some (EOF, password_request)
      else
        let request1 :=
          {| req_type := c; req_length := req_length password_request |} in
        let* p2 := scan_space p1 in
        let* (w, p3) := scan_word p2 in
        match w with
        | [] => Some (1, request1)
        | _ :: _ =>
            let* l := write_string (req_length password_request) w in
            let request2 := {| req_type := c; req_length := l |} in
            let* p4 := scan_space p3 in
            let* (w', _) := scan_word p4 in
            match w' with
            | [] => Some (2, request2)
            | _ :: _ => None
            end
        end
  end.

(** ** [handle_user_input] *)

Definition invalid_input_text : list ascii :=
  literal (text_lines
    ["Invalid input. Please enter a valid type and length."]%string "").

Definition bad_type_text : list ascii :=
  literal (text_lines
    ["Bad request: the type inserted is not valid."]%string "").

Definition bad_length_text : list ascii :=
  literal (text_lines
    ["Bad request: the length for the password is not valid."]%string "").

(** The [do ... while] loop.  [stdin] lists what each [fgets] leaves in
    the array [input]; [out] is what has been written to the terminal.
    The result is [arguments], the record, the input still unread and the
    output.  [None]: the behaviour is undefined, or the input offered is
    used up and the program waits in [fgets]. *)
Fixpoint handle_user_input_loop (stdin : list (list ascii))
  (password_request : PasswordRequest) (out : list ascii)
  : option (Z * PasswordRequest * list (list ascii) * list ascii) :=
  match stdin with
  | [] => None
  | input :: stdin' =>
      let* menu := show_password_menu in
      let* input1 := store input (Z.of_nat BUFFER_SIZE - 1) NUL in
      let* (arguments, request1) := sscanf_type_length input1 password_request in
      let* length1 := store (req_length request1) (Z.of_nat BUFFER_SIZE - 1) NUL in
      let request2 := {| req_type := req_type request1; req_length := length1 |} in
      if tolower (int_of_char (req_type request2)) =? int_of_char "h"
      then let* help := show_help_menu in
           handle_user_input_loop stdin' request2 (out ++ menu ++ help)
      else Some (arguments, request2, stdin', out ++ menu)
  end.

(** The function: the flag returned, the record, the input still unread
    and the output. *)
Definition handle_user_input (password_request : PasswordRequest)
  (stdin : list (list ascii))
  : option (bool * PasswordRequest * list (list ascii) * list ascii) :=
  let* (arguments, request, stdin', out) :=
    handle_user_input_loop stdin password_request [] in
  if negb (arguments =? 1) && negb (arguments =? 2)
  then let* msg := print_with_color (Some invalid_input_text) RED in
       Some (false, request, stdin', out ++ msg)
  else
    let* request1 :=
      (if arguments =? 1
       then let* l := strcpy (req_length request) (literal "8") in
            Some {| req_type := req_type request; req_length := l |}
       else Some request) in
    let* ok_type := control_type (literal "namsuq") (req_type request1) in
    if negb ok_type
    then let* msg := print_with_color (Some bad_type_text) RED in
         Some (false, request1, stdin', out ++ msg)
    else
      let* ok_length := control_length (req_length request1)
                     MIN_PASSWORD_LENGTH MAX_PASSWORD_LENGTH in
      if negb ok_length
      then let* msg := print_with_color (Some bad_length_text) RED in
           Some (false, request1, stdin', out ++ msg)
      else Some (true, request1, stdin', out).

(** ** [main] *)

Definition EXIT_SUCCESS : Z := 0.
Definition EXIT_FAILURE : Z := 1.

(** [error_handler], outside Windows. *)
Definition error_handler (error_message : list ascii) : option (list ascii) :=
  print_with_color (Some error_message) MAGENTA.

(** The client between two turns of its loop: the two records, the input
    still unread, what the network will do at the next exchanges (the
    value [sendto] returns and the outcome of [recvfrom]), the terminal
    output and the datagrams sent, oldest first. *)
Record client := {
  cl_request : PasswordRequest;
  cl_response : PasswordResponse;
  cl_stdin : list (list ascii);
  cl_network : list (Z * recv_outcome);
  cl_stdout : list ascii;
  cl_sent : list (list ascii)
}.

Inductive client_process :=
  | ClientRunning (c : client)
  | ClientExited (status : Z) (c : client).

(** One turn of [while(true)]. *)
Definition main_turn (c : client) : option client_process :=
  let* (valid, request, stdin, out) := handle_user_input (cl_request c) (cl_stdin c) in
  let c1 := {| cl_request := request; cl_response := cl_response c;
               cl_stdin := stdin; cl_network := cl_network c;
               cl_stdout := cl_stdout c ++ out; cl_sent := cl_sent c |} in
  if negb valid then Some (ClientRunning c1)
  else if negb (keep_generating (req_type request) "q")
  then Some (ClientExited EXIT_SUCCESS c1)
  else
    match cl_network c with
    | [] => None
    | (sent, net) :: network =>
        if negb (send_request request sent)
        then let* msg := error_handler
                      (literal (text_lines
    ["Error sending request (Password settings)."]%string "")) in
             Some (ClientExited EXIT_FAILURE
                     {| cl_request := request; cl_response := cl_response c;
                        cl_stdin := stdin; cl_network := network;
                        cl_stdout := cl_stdout c1 ++ msg; cl_sent := cl_sent c |})
        else
          let datagrams := cl_sent c ++ [request_datagram request] in
          let (received, response) := receive_response (cl_response c) net in
          if negb received
          then let* msg := error_handler
                        (literal (text_lines
    ["Error receiving response (Password generation response)."]%string "")) in
               Some (ClientExited EXIT_FAILURE
                       {| cl_request := request; cl_response := response;
                          cl_stdin := stdin; cl_network := network;
                          cl_stdout := cl_stdout c1 ++ msg; cl_sent := datagrams |})
          else
            let* label := print_with_color (Some (literal "Password generated: ")) GREEN in
            let* shown := print_with_color (Some (resp_password response)) GREEN in
            Some (ClientRunning
                    {| cl_request := request; cl_response := response;
                       cl_stdin := stdin; cl_network := network;
                       cl_stdout := cl_stdout c1 ++ label ++ shown ++ [LF; LF];
                       cl_sent := datagrams |})
    end.

(** The loop, for at most [n] turns. *)
Fixpoint main_loop (n : nat) (c : client) : option client_process :=
  match n with
  | O => Some (ClientRunning c)
  | S n' =>
      match main_turn c with
      | None => None
      | Some (ClientRunning c') => main_loop n' c'
      | Some (ClientExited status c') => Some (ClientExited status c')
      end
  end.

(** [main], outside Windows: [host_found] tells whether [gethostbyname]
    finds the server, [created_socket] is what [socket] returns. *)
Definition main (host_found : bool) (created_socket : Z) (n : nat) (c : client)
  : option client_process :=
  if negb host_found
  then let* msg := error_handler (literal (text_lines
    ["Error resolving host"]%string "")) in
       Some (ClientExited EXIT_FAILURE
               {| cl_request := cl_request c; cl_response := cl_response c;
                  cl_stdin := cl_stdin c; cl_network := cl_network c;
                  cl_stdout := cl_stdout c ++ msg; cl_sent := cl_sent c |})
  else if created_socket <? 0
  then let* msg := error_handler (literal (text_lines
    ["Error creating socket."]%string "")) in
       Some (ClientExited EXIT_FAILURE
               {| cl_request := cl_request c; cl_response := cl_response c;
                  cl_stdin := cl_stdin c; cl_network := cl_network c;
                  cl_stdout := cl_stdout c ++ msg; cl_sent := cl_sent c |})
  else main_loop n c.

End ClientSession.

(* ===================================================================== *)
(** * The words of the specification                                      *)
(* ===================================================================== *)

Module Spec.
Import C.

(** Membership in a set of characters, as a test. *)
Definition mem (c : ascii) (l : list ascii) : bool := existsb (Ascii.eqb c) l.

(** Lowercase folding: the twenty-six capital letters go to their small
    letters, every other character stays. *)
Definition lowercase_fold (c : ascii) : ascii :=
  match c with
  | "A" => "a" | "B" => "b" | "C" => "c" | "D" => "d" | "E" => "e"
  | "F" => "f" | "G" => "g" | "H" => "h" | "I" => "i" | "J" => "j"
  | "K" => "k" | "L" => "l" | "M" => "m" | "N" => "n" | "O" => "o"
  | "P" => "p" | "Q" => "q" | "R" => "r" | "S" => "s" | "T" => "t"
  | "U" => "u" | "V" => "v" | "W" => "w" | "X" => "x" | "Y" => "y"
  | "Z" => "z"
  | _ => c
  end%char.

Definition digits : list ascii := list_ascii_of_string "0123456789".
Definition lowercase : list ascii := list_ascii_of_string "abcdefghijklmnopqrstuvwxyz".
Definition uppercase : list ascii := list_ascii_of_string "ABCDEFGHIJKLMNOPQRSTUVWXYZ".
Definition symbols : list ascii := list_ascii_of_string "!@#$%^&*()".

(** The glyphs the Unambiguous variant leaves out:
    [0 O o], [1 l I i], [2 Z z], [5 S s], [8 B]. *)
Definition excluded_glyphs : list ascii := list_ascii_of_string "0Oo1lIi2Zz5Ss8B".

(** A raw length is a number when it is not empty and all its characters
    are digits. *)
Definition is_number (raw : list ascii) : bool :=
  negb (Nat.eqb (List.length raw) 0) && forallb (fun c => mem c digits) raw.

Definition digit_value (c : ascii) : Z := int_of_char c - int_of_char "0".

(** The decimal value: each digit counts for its power of ten. *)
Fixpoint decimal_value (raw : list ascii) : Z :=
  match raw with
  | [] => 0
  | c :: rest => digit_value c * 10 ^ Z.of_nat (List.length rest) + decimal_value rest
  end.

(** The two-stage draw of the Mixed variant: first a binary choice
    between the digit charset and the letter charset, then a draw within
    the chosen charset.  Both stages take their randomness from [rand]. *)
Definition two_stage_draw (s : rand_state) : ascii * rand_state :=
  let (coin, s1) := rand s in
  let chosen := if Z.even coin then digits else lowercase in
  let (r, s2) := rand s1 in
  (nth (Z.to_nat (r mod Z.of_nat (List.length chosen))) chosen NUL, s2).

Fixpoint two_stage_password (n : nat) (s : rand_state) : list ascii * rand_state :=
  match n with
  | O => ([], s)
  | S n' =>
      let (c, s1) := two_stage_draw s in
      let (cs, s2) := two_stage_password n' s1 in
      (c :: cs, s2)
  end.

(** What the Mixed variant is not: one draw over the union of the two
    charsets for each character. *)
Definition single_draw (s : rand_state) : ascii * rand_state :=
  let (r, s1) := rand s in
  let union := digits ++ lowercase in
  (nth (Z.to_nat (r mod Z.of_nat (List.length union))) union NUL, s1).

Fixpoint single_draw_password (n : nat) (s : rand_state) : list ascii * rand_state :=
  match n with
  | O => ([], s)
  | S n' =>
      let (c, s1) := single_draw s in
      let (cs, s2) := single_draw_password n' s1 in
      (c :: cs, s2)
  end.

(** A state of [rand] whose next results are those of a list, and 0
    after them. *)
Definition rand_of_list (l : list N) : rand_state :=
  {| rs_stream := fun n => nth n l 0%N; rs_srand_calls := O |}.

End Spec.

(* ===================================================================== *)
(** * Definitions for the statements                                      *)
(* ===================================================================== *)

Import C Spec Client Server Protocol ClientProgram ServerProgram.
Import Utils.

(** The characters that [n] successive draws give, without the array. *)
Fixpoint draws (d : draw) (n : nat) (s : rand_state)
  : option (list ascii * rand_state) :=
  match n with
  | O => Some ([], s)
  | S n' =>
      match d s with
      | None => None
      | Some (c, s1) =>
          match draws d n' s1 with
          | None => None
          | Some (cs, s2) => Some (c :: cs, s2)
          end
      end
  end.

(** The set of characters of each variant, in the words of the
    specification. *)
Definition charset_of (type : PasswordType) : list ascii :=
  if type =? NUMERIC then digits
  else if type =? ALPHA then lowercase
  else if type =? MIXED then digits ++ lowercase
  else if type =? SECURE then lowercase ++ uppercase ++ digits ++ symbols
  else if type =? UNAMBIGUOUS then lowercase ++ uppercase ++ digits ++ symbols
  else [].

(** What the claim asks of a character of a password of a given type: it
    is in the charset of the type, it is not the terminator, and for the
    Unambiguous variant it is none of the excluded glyphs. *)
Definition good_char (type : PasswordType) (c : ascii) : bool :=
  mem c (charset_of type) && negb (Ascii.eqb c NUL)
  && (if type =? UNAMBIGUOUS then negb (mem c excluded_glyphs) else true).

(** An example state of [rand]. *)
Definition example_rand : rand_state :=
  {| rs_stream := fun n => N.of_nat (7 * n * n + 3 * n + 1)%nat; rs_srand_calls := O |}.

(** How often [draw_mixed] gives [c] over the coins 0, 1 and the second
    results 0, ..., 129 (130 is the least common multiple of 10 and 26). *)
Definition mixed_weight (c : ascii) : nat :=
  List.length
    (List.filter (fun p : N * N =>
               match draw_mixed (rand_of_list [fst p; snd p]) with
               | Some (c', _) => Ascii.eqb c' c
               | None => false
               end)
            (list_prod (map N.of_nat (seq 0 2)) (map N.of_nat (seq 0 130)))).

(** The five codes of the protocol. *)
Definition type_codes : list ascii := list_ascii_of_string "namsu".

(** A request with the unknown type ['x'] and the length ["8"]; the bytes
    of the field after the terminator are left over. *)
Definition request_x_8 : PasswordRequest :=
  {| req_type := "x"; req_length := literal "8" ++ replicate 1022 "?"%char |}.

(** A response record before the server fills it. *)
Definition response_buffer : PasswordResponse :=
  {| resp_password := replicate 33 "?"%char |}.

(** The request of the round trip of the specification: type ['s'] and
    length ["16"], the rest of the field zeroed. *)
Definition request_s_16 : PasswordRequest :=
  {| req_type := "s"; req_length := literal "16" ++ replicate 1021 NUL |}.

(** The request of a password of eight digits, arriving whole. *)
Definition turn_n_8 : turn :=
  {| turn_request := request_x_8;
     turn_response := response_buffer;
     turn_recv := RecvDatagram
                    (request_datagram
                       {| req_type := "n";
                          req_length := literal "8" ++ replicate 1022 NUL |});
     turn_sent := 33 |}.

(** The state of [rand] a process has reached. *)
Definition process_rand (p : process) : rand_state :=
  match p with
  | Running _ s => s
  | Exited _ _ s => s
  end.

(** A draw that calls [rand] and never [srand]. *)
Definition no_srand (d : draw) : Prop :=
  forall s c s', d s = Some (c, s') -> rs_srand_calls s' = rs_srand_calls s.

(** The number of calls of [rand] that the generator of a type makes for
    a length. *)
Definition rand_calls (type : PasswordType) (length : Z) : nat :=
  if type =? MIXED then (2 * Z.to_nat length)%nat
  else if (0 <=? type) && (type <=? UNAMBIGUOUS) then Z.to_nat length
  else O.

(** The datagrams a server process has sent. *)
Definition process_sent (p : process) : list (list ascii) :=
  match p with
  | Running sent _ => sent
  | Exited _ sent _ => sent
  end.

(** White space, as [isspace] sees a character. *)
Definition blank (c : ascii) : bool := isspace (int_of_char c).

(** A draw that calls [rand] exactly [k] times. *)
Definition calls_rand (k : nat) (d : draw) : Prop :=
  forall s c s', d s = Some (c, s') ->
                 forall i, rs_stream s' i = rs_stream s (i + k)%nat.

(** A datagram that holds a response: 33 bytes, a terminated string at
    their start. *)
Definition response_shaped (d : list ascii) : Prop :=
  List.length d = sizeof_PasswordResponse /\
  exists pw, c_str d = Some pw /\ (List.length pw <= 32)%nat.

(** A character of a word for [%s]: neither white space nor the
    terminator. *)
Definition word_char (c : ascii) : bool := negb (Ascii.eqb c NUL || blank c).

(** The six characters [handle_user_input] lets through as a type. *)
Definition command_codes : list ascii := list_ascii_of_string "namsuq".

(** The length a command asks for: its second word, or ["8"] when there
    is none. *)
Definition requested_length (w : list ascii) : list ascii :=
  match w with
  | [] => list_ascii_of_string "8"
  | _ :: _ => w
  end.

(** A length the client lets through. *)
Definition valid_length (raw : list ascii) : bool :=
  is_number raw && (6 <=? decimal_value raw) && (decimal_value raw <=? 32).

(** The bytes a print has written. *)
Definition written (o : option (list ascii)) : list ascii :=
  match o with
  | Some l => l
  | None => []
  end.

(** The result of [handle_user_input] with some output put before its
    own. *)
Definition after_output (before : list ascii)
  (r : bool * PasswordRequest * list (list ascii) * list ascii)
  : bool * PasswordRequest * list (list ascii) * list ascii :=
  let '(valid, request, stdin, out) := r in (valid, request, stdin, before ++ out).

(** A datagram that holds a request the client's checks let through: the
    1025 bytes of a record whose type is one of n, a, m, s, u and whose
    length field is a terminated number from 6 to 32. *)
Definition valid_request_datagram (d : list ascii) : Prop :=
  List.length d = sizeof_PasswordRequest /\
  mem (req_type (request_of_bytes d)) type_codes = true /\
  exists raw rest,
    req_length (request_of_bytes d) = raw ++ NUL :: rest /\
    valid_length raw = true.

(** The client a process has reached. *)
Definition client_of (p : ClientSession.client_process) : ClientSession.client :=
  match p with
  | ClientSession.ClientRunning c => c
  | ClientSession.ClientExited _ c => c
  end.

(** What may follow a word: white space or the terminator. *)
Definition ends_word (p : list ascii) : Prop :=
  match p with
  | [] => False
  | d :: _ => word_char d = false
  end.

(** The array [input] after [fgets] has read a line the user typed: the
    characters, the newline, the terminator, and leftover bytes up to the
    size of the array. *)
Definition typed_line (s : string) : list ascii :=
  list_ascii_of_string s
    ++ LF :: NUL :: replicate (BUFFER_SIZE - 2 - String.length s) "#"%char.

(** A client at the start of its loop, with the lines the user will type
    and what the network will do. *)
Definition client_typing (lines : list string) (network : list (Z * recv_outcome))
  : ClientSession.client :=
  {| ClientSession.cl_request := request_x_8;
     ClientSession.cl_response := response_buffer;
     ClientSession.cl_stdin := map typed_line lines;
     ClientSession.cl_network := network;
     ClientSession.cl_stdout := [];
     ClientSession.cl_sent := [] |}.

(** The user types an uppercase type, then a valid command, then [q];
    the network carries one exchange. *)
Definition example_client : ClientSession.client :=
  client_typing ["N 12"; "n 12"; "q"]%string
    [(1025, RecvDatagram (literal "314159265358" ++ replicate 20 NUL))].

(** The bytes of the escape sequence of a colour. *)
Definition color_code (color : textColor) : list ascii :=
  written (c_str (generate_ansi_color_code color)).

(** The variant a type code asks for: n, a, m, s, u in either case, and
    Numeric for every other character. *)
Definition variant_of_code (c : ascii) : PasswordType :=
  match lowercase_fold c with
  | "n" => NUMERIC
  | "a" => ALPHA
  | "m" => MIXED
  | "s" => SECURE
  | "u" => UNAMBIGUOUS
  | _ => NUMERIC
  end%char.

(** The characters a password of a variant may hold: the charset of the
    variant, and for Unambiguous what is left of it when the excluded
    glyphs are taken out. *)
Definition glyphs_of (type : PasswordType) : list ascii :=
  if type =? UNAMBIGUOUS
  then List.filter (fun c => negb (mem c excluded_glyphs)) (charset_of type)
  else charset_of type.

(* ===================================================================== *)
(** * Facts about characters and the C library                            *)
(* ===================================================================== *)

#[local] Arguments Ascii.eqb : simpl never.
#[local] Arguments mem : simpl never.

Ltac each_ascii c := destruct c as [[] [] [] [] [] [] [] []].

Lemma int_of_char_inj (a b : ascii) : int_of_char a = int_of_char b -> a = b.
Proof.
  unfold int_of_char. intros H. apply N2Z.inj in H.
  rewrite <- (ascii_N_embedding a), <- (ascii_N_embedding b). now rewrite H.
Qed.

Lemma tolower_fold (c : ascii) :
  tolower (int_of_char c) = int_of_char (lowercase_fold c).
Proof. each_ascii c; reflexivity. Qed.

Lemma isdigit_mem (c : ascii) : isdigit (int_of_char c) = mem c digits.
Proof. each_ascii c; reflexivity. Qed.

Lemma isdigit_range (z : Z) : isdigit z = true <-> 48 <= z <= 57.
Proof.
  unfold isdigit. change (int_of_char "0") with 48. change (int_of_char "9") with 57.
  rewrite andb_true_iff, !Z.leb_le. tauto.
Qed.

Lemma mem_In (c : ascii) (l : list ascii) : mem c l = true <-> In c l.
Proof.
  unfold mem. rewrite existsb_exists. split.
  - intros [x [Hx Heq]]. apply Ascii.eqb_eq in Heq. now subst.
  - intros H. exists c. split; [assumption | apply Ascii.eqb_refl].
Qed.

Lemma mem_cons (c x : ascii) (l : list ascii) :
  mem c (x :: l) = Ascii.eqb c x || mem c l.
Proof. reflexivity. Qed.

(** The scan of [strchr] over a string and its terminator. *)
Lemma strchr_from_string (allowed rest : list ascii) (c : ascii) (i : nat) :
  ~ In NUL allowed -> c <> NUL ->
  exists r, strchr_from i (allowed ++ NUL :: rest) c = Some r /\
            (is_Some r <-> mem c allowed = true).
Proof.
  intros Hnul Hc. revert i. induction allowed as [|x allowed IH]; intros i; simpl.
  - destruct (Ascii.eqb_spec NUL c) as [E|_]; [congruence|].
    exists None. split; [reflexivity|]. split; [intros [? ?]|]; discriminate.
  - destruct (Ascii.eqb_spec x c) as [E|E].
    + subst. exists (Some i). rewrite mem_cons, Ascii.eqb_refl. split; [reflexivity|].
      split; [reflexivity | intros _; eexists; reflexivity].
    + destruct (Ascii.eqb_spec x NUL) as [E'|_].
      { exfalso. apply Hnul. left. assumption. }
      destruct (IH (fun H => Hnul (or_intror H)) (S i)) as [r [Hr Hiff]].
      exists r. split; [assumption|]. rewrite mem_cons.
      destruct (Ascii.eqb_spec c x) as [E''|_]; [congruence|]. exact Hiff.
Qed.

Lemma control_length_loop_string (raw rest : list ascii) :
  ~ In NUL raw ->
  control_length_loop (raw ++ NUL :: rest) = Some (forallb (fun c => mem c digits) raw).
Proof.
  intros Hnul. induction raw as [|x raw IH]; simpl; [reflexivity|].
  destruct (Ascii.eqb_spec x NUL) as [E|_].
  { exfalso. apply Hnul. left. assumption. }
  rewrite isdigit_mem. destruct (mem x digits); simpl; [|reflexivity].
  apply IH. intros H. apply Hnul. right. assumption.
Qed.

Lemma atoi_digits_string (raw rest : list ascii) (acc : Z) :
  forallb (fun c => mem c digits) raw = true ->
  atoi_digits acc (raw ++ NUL :: rest)
  = Some (acc * 10 ^ Z.of_nat (List.length raw) + decimal_value raw).
Proof.
  revert acc. induction raw as [|x raw IH]; intros acc Hd; simpl.
  - f_equal. lia.
  - simpl in Hd. apply andb_true_iff in Hd as [Hx Hd].
    rewrite isdigit_mem, Hx, (IH _ Hd). f_equal. unfold digit_value.
    rewrite Nat2Z.inj_succ, Z.pow_succ_r by lia. ring.
Qed.

(** A digit or the terminator is neither white space nor a sign. *)
Lemma atoi_starts_at_digits (p : list ascii) (c : ascii) :
  mem c digits = true \/ c = NUL ->
  atoi_space (c :: p) = atoi_digits 0 (c :: p).
Proof.
  intros H. assert (Hc : mem c (NUL :: digits) = true).
  { rewrite mem_cons. destruct H as [H | ->]; [rewrite H; apply orb_true_r | reflexivity]. }
  clear H. revert Hc. each_ascii c; intros Hc; try discriminate Hc; reflexivity.
Qed.

Lemma atoi_space_string (raw rest : list ascii) :
  forallb (fun c => mem c digits) raw = true ->
  atoi_space (raw ++ NUL :: rest) = Some (decimal_value raw).
Proof.
  intros Hd. pose proof (atoi_digits_string raw rest 0 Hd) as Hv.
  rewrite Z.mul_0_l, Z.add_0_l in Hv. rewrite <- Hv.
  destruct raw as [|x raw].
  - apply atoi_starts_at_digits. now right.
  - apply atoi_starts_at_digits. left. simpl in Hd. now apply andb_true_iff in Hd as [? _].
Qed.

Lemma decimal_value_nonneg (raw : list ascii) :
  forallb (fun c => mem c digits) raw = true -> 0 <= decimal_value raw.
Proof.
  induction raw as [|x raw IH]; simpl; [lia|].
  intros Hd. apply andb_true_iff in Hd as [Hx Hd]. specialize (IH Hd).
  rewrite <- isdigit_mem in Hx. apply isdigit_range in Hx.
  unfold digit_value. change (int_of_char "0") with 48.
  assert (0 <= 10 ^ Z.of_nat (List.length raw)) by (apply Z.pow_nonneg; lia). nia.
Qed.

(* ===================================================================== *)
(** * The validators                                                      *)
(* ===================================================================== *)

Lemma not_In_NUL (l : list ascii) : mem NUL l = false -> ~ In NUL l.
Proof. intros H Hin. apply mem_In in Hin. congruence. Qed.

(** C9. [keep_generating] is true exactly when the two characters differ
    after lowercase folding; it is false for ['q','q'] and for ['Q','q']
    and true for ['n','q']. *)
Theorem keep_generating_folded_inequality :
  (forall a b : ascii,
      keep_generating a b = true <-> lowercase_fold a <> lowercase_fold b) /\
  keep_generating "q" "q" = false /\
  keep_generating "Q" "q" = false /\
  keep_generating "n" "q" = true.
Proof.
  split; [|repeat split; reflexivity].
  intros a b. unfold keep_generating. rewrite !tolower_fold, negb_true_iff, Z.eqb_neq.
  split.
  - intros H E. apply H. now rewrite E.
  - intros H E. apply H. now apply int_of_char_inj.
Qed.

(** C2, as the claim has it, fails: the folded ['N'] is in ["namsu"],
    and [control_type] rejects ['N']. *)
Lemma control_type_rejects_capital :
  mem (lowercase_fold "N") (list_ascii_of_string "namsu") = true /\
  control_type (literal "namsu") "N" = Some false.
Proof. split; reflexivity. Qed.

(** C2, amended. For a candidate string and a character other than the
    terminator, [control_type] is true exactly when the character itself,
    not folded, is one of the candidates: the comparison is case
    sensitive. *)
Theorem control_type_case_sensitive (allowed rest : list ascii) (c : ascii) :
  ~ In NUL allowed -> c <> NUL ->
  control_type (allowed ++ NUL :: rest) c = Some (mem c allowed).
Proof.
  intros Hnul Hc. unfold control_type, strchr.
  destruct (strchr_from_string allowed rest c 0 Hnul Hc) as [r [-> Hiff]].
  destruct r as [i|].
  - f_equal. symmetry. apply Hiff. eexists; reflexivity.
  - f_equal. destruct (mem c allowed); [|reflexivity].
    destruct (proj2 Hiff eq_refl) as [? ?]. discriminate.
Qed.

Lemma control_type_case_sensitive_witness :
  control_type (literal "namsu") "n" = Some true /\
  control_type (literal "namsu") "U" = Some false.
Proof.
  split.
  - apply (control_type_case_sensitive (list_ascii_of_string "namsu") [] "n").
    + apply not_In_NUL. reflexivity.
    + discriminate.
  - apply (control_type_case_sensitive (list_ascii_of_string "namsu") [] "U").
    + apply not_In_NUL. reflexivity.
    + discriminate.
Defined.

(** The terminator itself is always found by [strchr], whatever the
    candidates; this is why the statement above leaves it out. *)
Example control_type_terminator :
  control_type (literal "namsu") NUL = Some true.
Proof. reflexivity. Qed.

(** C3, as the claim has it, fails: with [min = 0 <= max = 10] the empty
    string is accepted, because [atoi] reads it as 0. *)
Lemma control_length_accepts_empty :
  0 <= 10 /\ control_length (literal "") 0 10 = Some true.
Proof. split; [lia | reflexivity]. Qed.

(** C3, amended. For a positive minimum, and a raw string whose decimal
    value, when it is a number, fits an [int]: [control_length] is true
    exactly when the raw string is not empty, has digits only, and its
    decimal value lies in [min, max]. *)
Theorem control_length_number_in_range (raw rest : list ascii) (min max : Z) :
  ~ In NUL raw ->
  0 < min ->
  (is_number raw = true -> decimal_value raw <= INT_MAX) ->
  control_length (raw ++ NUL :: rest) min max
  = Some (is_number raw && (min <=? decimal_value raw) && (decimal_value raw <=? max)).
Proof.
  intros Hnul Hmin Hfit. unfold control_length.
  rewrite (control_length_loop_string raw rest Hnul). unfold is_number in *.
  destruct (forallb (fun c => mem c digits) raw) eqn:Hd.
  2:{ now rewrite andb_false_r. }
  unfold atoi. rewrite (atoi_space_string raw rest Hd).
  pose proof (decimal_value_nonneg raw Hd) as Hpos.
  destruct raw as [|x raw].
  - simpl. f_equal. destruct (0 >=? min) eqn:E; [|reflexivity].
    rewrite Z.geb_leb in E. apply Z.leb_le in E. lia.
  - change (negb (Nat.eqb (List.length (x :: raw)) 0)) with true in *.
    specialize (Hfit eq_refl).
    set (v := decimal_value (x :: raw)) in *. clearbody v.
    assert (Hlo : (INT_MIN <=? v) = true) by (apply Z.leb_le; unfold INT_MIN; lia).
    assert (Hhi : (v <=? INT_MAX) = true) by (apply Z.leb_le; exact Hfit).
    rewrite Hlo, Hhi. cbn [andb]. now rewrite Z.geb_leb.
Qed.

(** A run of digits whose value does not fit an [int] has no defined
    result: [atoi] is undefined there. *)
Example control_length_overflow :
  control_length (literal "4294967302") 6 32 = None.
Proof. reflexivity. Qed.

Lemma control_length_number_in_range_witness :
  control_length (literal "") 6 32 = Some false /\
  control_length (literal "5") 6 32 = Some false /\
  control_length (literal "33") 6 32 = Some false /\
  control_length (literal "6") 6 32 = Some true /\
  control_length (literal "32") 6 32 = Some true /\
  control_length (literal "3x") 6 32 = Some false.
Proof.
  refine (conj _ (conj _ (conj _ (conj _ (conj _ _))))).
  - apply (control_length_number_in_range [] [] 6 32);
      [apply not_In_NUL; reflexivity | lia | discriminate].
  - apply (control_length_number_in_range (list_ascii_of_string "5") [] 6 32);
      [apply not_In_NUL; reflexivity | lia | intros _; vm_compute; discriminate].
  - apply (control_length_number_in_range (list_ascii_of_string "33") [] 6 32);
      [apply not_In_NUL; reflexivity | lia | intros _; vm_compute; discriminate].
  - apply (control_length_number_in_range (list_ascii_of_string "6") [] 6 32);
      [apply not_In_NUL; reflexivity | lia | intros _; vm_compute; discriminate].
  - apply (control_length_number_in_range (list_ascii_of_string "32") [] 6 32);
      [apply not_In_NUL; reflexivity | lia | intros _; vm_compute; discriminate].
  - apply (control_length_number_in_range (list_ascii_of_string "3x") [] 6 32);
      [apply not_In_NUL; reflexivity | lia | discriminate].
Defined.

(* ===================================================================== *)
(** * The generators                                                      *)
(* ===================================================================== *)

Section Draws.

Variable d : draw.

Lemma draws_length (n : nat) (s s' : rand_state) (cs : list ascii) :
  draws d n s = Some (cs, s') -> List.length cs = n.
Proof.
  revert s cs. induction n as [|n IH]; intros s cs; simpl.
  - intros [= <- _]. reflexivity.
  - destruct (d s) as [[c s1]|]; [|discriminate].
    destruct (draws d n s1) as [[cs1 s2]|] eqn:E; [|discriminate].
    intros [= <- <-]. simpl. f_equal. exact (IH _ _ E).
Qed.

Lemma draws_all (P : ascii -> Prop) :
  (forall s, exists c s', d s = Some (c, s') /\ P c) ->
  forall n s, exists cs s',
    draws d n s = Some (cs, s') /\ List.length cs = n /\ Forall P cs.
Proof.
  intros Hd. induction n as [|n IH]; intros s; simpl.
  - exists [], s. repeat split. constructor.
  - destruct (Hd s) as [c [s1 [-> Hc]]].
    destruct (IH s1) as [cs [s2 [-> [Hlen Hall]]]].
    exists (c :: cs), s2. split; [reflexivity|]. split; [simpl; now f_equal|].
    now constructor.
Qed.

Lemma store_inside (a : list ascii) (i : nat) (c : ascii) :
  (i < List.length a)%nat -> store a (Z.of_nat i) c = Some (<[i := c]> a).
Proof.
  intros Hi. unfold store, sizeof.
  replace (0 <=? Z.of_nat i) with true by (symmetry; apply Z.leb_le; lia).
  replace (Z.of_nat i <? Z.of_nat (List.length a)) with true
    by (symmetry; apply Z.ltb_lt; lia).
  now rewrite Nat2Z.id.
Qed.

(** The loop writes the characters drawn at [i], [i+1], ... and leaves
    the rest of the array as it was. *)
Lemma fill_draws (n i : nat) (password : list ascii) (s : rand_state) :
  (i + n <= List.length password)%nat ->
  fill d n (Z.of_nat i) password s
  = (fun r => (take i password ++ fst r ++ drop (i + n) password, snd r))
      <$> draws d n s.
Proof.
  revert i password s. induction n as [|n IH]; intros i password s Hlen; simpl.
  - now rewrite Nat.add_0_r, take_drop.
  - destruct (d s) as [[c s1]|]; [|reflexivity].
    rewrite store_inside by lia.
    replace (Z.of_nat i + 1) with (Z.of_nat (S i)) by lia.
    rewrite IH by (rewrite length_insert; lia).
    destruct (draws d n s1) as [[cs s2]|]; [|reflexivity]. simpl. do 2 f_equal.
    rewrite (take_S_r _ _ c) by (apply list_lookup_insert_eq; lia).
    rewrite take_insert_ge by lia. rewrite drop_insert_lt by lia.
    rewrite <- app_assoc. simpl. now rewrite Nat.add_succ_r.
Qed.

(** A generator leaves the characters drawn, a terminator, and the old
    contents behind it. *)
Lemma generate_draws (password : list ascii) (length : Z) (s : rand_state) :
  0 <= length < sizeof password ->
  generate d password length s
  = (fun r => (fst r ++ NUL :: drop (S (Z.to_nat length)) password, snd r))
      <$> draws d (Z.to_nat length) s.
Proof.
  unfold sizeof. intros Hlen. unfold generate.
  remember (Z.to_nat length) as n eqn:Hn.
  assert (length = Z.of_nat n) as -> by lia. clear Hn.
  pose proof (fill_draws n 0 password s) as Hfill.
  change (Z.of_nat 0) with 0 in Hfill. rewrite Hfill by (simpl; lia). clear Hfill.
  destruct (draws d n s) as [[cs s1]|] eqn:E; [|reflexivity].
  simpl. apply draws_length in E. subst n.
  destruct (lookup_lt_is_Some_2 password (List.length cs)) as [x Hx]; [lia|].
  rewrite (drop_S _ _ _ Hx).
  rewrite store_inside by (rewrite length_app; simpl; lia).
  rewrite insert_app_r_alt by lia. now rewrite Nat.sub_diag.
Qed.

End Draws.

Lemma c_str_string (cs rest : list ascii) :
  Forall (fun c => c <> NUL) cs -> c_str (cs ++ NUL :: rest) = Some cs.
Proof.
  induction 1 as [|c cs Hc _ IH]; simpl.
  - reflexivity.
  - destruct (Ascii.eqb_spec c NUL); [contradiction|]. now rewrite IH.
Qed.

(** A test that holds at 0, 1, ..., n-1 holds below [n]. *)
Lemma forall_below (f : Z -> bool) (n : nat) :
  forallb f (map Z.of_nat (seq 0 n)) = true ->
  forall k, 0 <= k < Z.of_nat n -> f k = true.
Proof.
  intros H k Hk. rewrite forallb_forall in H. apply H.
  rewrite <- (Z2Nat.id k) by lia. apply in_map. apply in_seq. lia.
Qed.

Lemma rand_rem_below (s : rand_state) (m : Z) :
  0 < m -> 0 <= Z.rem (fst (rand s)) m < m.
Proof. intros Hm. apply Z.rem_bound_pos; [apply N2Z.is_nonneg | exact Hm]. Qed.

Lemma generate_all (d : draw) (P : ascii -> Prop) (password : list ascii)
  (length : Z) (s : rand_state) :
  (forall s, exists c s', d s = Some (c, s') /\ P c) ->
  0 <= length < sizeof password ->
  exists pw s',
    generate d password length s
      = Some (pw ++ NUL :: drop (S (Z.to_nat length)) password, s') /\
    Z.of_nat (List.length pw) = length /\ Forall P pw.
Proof.
  intros Hd Hlen. rewrite generate_draws by exact Hlen.
  destruct (draws_all d P Hd (Z.to_nat length) s) as [cs [s' [-> [Hn Hall]]]].
  exists cs, s'. simpl. split; [reflexivity|]. split; [lia | exact Hall].
Qed.

Lemma draw_numeric_good (s : rand_state) :
  exists c s', draw_numeric s = Some (c, s') /\ good_char NUMERIC c = true.
Proof.
  unfold draw_numeric. pose proof (rand_rem_below s 10 ltac:(lia)) as Hb.
  destruct (rand s) as [r s1]. simpl in Hb. eexists _, _. split; [reflexivity|].
  apply (forall_below (fun k => good_char NUMERIC (char_of_int (int_of_char "0" + k))) 10);
    [vm_compute; reflexivity | exact Hb].
Qed.

Lemma draw_alpha_good (s : rand_state) :
  exists c s', draw_alpha s = Some (c, s') /\ good_char ALPHA c = true.
Proof.
  unfold draw_alpha. pose proof (rand_rem_below s 26 ltac:(lia)) as Hb.
  destruct (rand s) as [r s1]. simpl in Hb. eexists _, _. split; [reflexivity|].
  apply (forall_below (fun k => good_char ALPHA (char_of_int (int_of_char "a" + k))) 26);
    [vm_compute; reflexivity | exact Hb].
Qed.

Lemma draw_mixed_good (s : rand_state) :
  exists c s', draw_mixed s = Some (c, s') /\ good_char MIXED c = true.
Proof.
  unfold draw_mixed. destruct (rand s) as [r s1].
  pose proof (rand_rem_below s1 26 ltac:(lia)) as Ha.
  pose proof (rand_rem_below s1 10 ltac:(lia)) as Hn.
  destruct (rand s1) as [r' s2]. simpl in Ha, Hn.
  destruct (negb (Z.rem r 2 =? 0)); eexists _, _; (split; [reflexivity|]).
  - apply (forall_below (fun k => good_char MIXED (char_of_int (int_of_char "a" + k))) 26);
      [vm_compute; reflexivity | exact Ha].
  - apply (forall_below (fun k => good_char MIXED (char_of_int (int_of_char "0" + k))) 10);
      [vm_compute; reflexivity | exact Hn].
Qed.

(** The index [rand() % (sizeof(charset) - 1)] stays before the
    terminator of the array. *)
Lemma draw_charset_good (charset : list ascii) (type : PasswordType) (n : nat)
  (s : rand_state) :
  sizeof charset - 1 = Z.of_nat n -> (0 < n)%nat ->
  forallb (fun k => match load charset k with
                    | Some c => good_char type c
                    | None => false
                    end) (map Z.of_nat (seq 0 n)) = true ->
  exists c s', draw_charset charset s = Some (c, s') /\ good_char type c = true.
Proof.
  intros Hsize Hn Hall. unfold draw_charset. rewrite Hsize.
  pose proof (rand_rem_below s (Z.of_nat n) ltac:(lia)) as Hb.
  destruct (rand s) as [r s1]. simpl in Hb.
  pose proof (forall_below _ n Hall _ Hb) as Hk. simpl in Hk.
  destruct (load charset (Z.rem r (Z.of_nat n))) as [c|]; [|discriminate].
  eexists _, _. split; [reflexivity | exact Hk].
Qed.

Lemma draw_secure_good (s : rand_state) :
  exists c s', draw_charset secure_charset s = Some (c, s') /\ good_char SECURE c = true.
Proof.
  apply (draw_charset_good secure_charset SECURE 72);
    [reflexivity | lia | vm_compute; reflexivity].
Qed.

Lemma draw_unambiguous_good (s : rand_state) :
  exists c s', draw_charset unambiguous_charset s = Some (c, s')
               /\ good_char UNAMBIGUOUS c = true.
Proof.
  apply (draw_charset_good unambiguous_charset UNAMBIGUOUS 57);
    [reflexivity | lia | vm_compute; reflexivity].
Qed.

Lemma good_char_parts (type : PasswordType) (pw : list ascii) :
  Forall (fun c => good_char type c = true) pw ->
  Forall (fun c => c <> NUL) pw /\
  Forall (fun c => mem c (charset_of type) = true) pw /\
  (type = UNAMBIGUOUS -> Forall (fun c => mem c excluded_glyphs = false) pw).
Proof.
  intros H. repeat split.
  - eapply Forall_impl; [exact H|]. intros c Hc. unfold good_char in Hc.
    apply andb_true_iff in Hc as [Hc _]. apply andb_true_iff in Hc as [_ Hc].
    apply negb_true_iff in Hc. intros ->. discriminate Hc.
  - eapply Forall_impl; [exact H|]. intros c Hc. unfold good_char in Hc.
    apply andb_true_iff in Hc as [Hc _]. now apply andb_true_iff in Hc as [Hc _].
  - intros ->. eapply Forall_impl; [exact H|]. intros c Hc. unfold good_char in Hc.
    apply andb_true_iff in Hc as [_ Hc]. now apply negb_true_iff in Hc.
Qed.

(** The five generators behind the [switch]: on a buffer with room for
    the terminator each leaves [length] good characters and a terminator. *)
Lemma generate_password_good (password : list ascii) (type : PasswordType)
  (length : Z) (s : rand_state) :
  In type [NUMERIC; ALPHA; MIXED; SECURE; UNAMBIGUOUS] ->
  0 <= length < sizeof password ->
  exists pw s',
    generate_password password type length s
      = Some (pw ++ NUL :: drop (S (Z.to_nat length)) password, s') /\
    Z.of_nat (List.length pw) = length /\
    Forall (fun c => good_char type c = true) pw.
Proof.
  intros Htype Hroom. simpl in Htype.
  destruct Htype as [<-|[<-|[<-|[<-|[<-|[]]]]]]; unfold generate_password; simpl.
  - apply generate_all; [exact draw_numeric_good | lia].
  - apply generate_all; [exact draw_alpha_good | lia].
  - apply generate_all; [exact draw_mixed_good | lia].
  - apply generate_all; [exact draw_secure_good | lia].
  - apply generate_all; [exact draw_unambiguous_good | lia].
Qed.

(** C1. For each of the five types and each length in [6,32],
    [generate_password] succeeds on a buffer with room for [length + 1]
    characters and leaves in it a terminated string of exactly [length]
    characters, all in the charset of the type; for UNAMBIGUOUS none of
    them is an excluded glyph.  This holds for every state of [rand]. *)
Theorem generate_password_in_charset (password : list ascii) (type : PasswordType)
  (length : Z) (s : rand_state) :
  In type [NUMERIC; ALPHA; MIXED; SECURE; UNAMBIGUOUS] ->
  6 <= length <= 32 ->
  length < sizeof password ->
  exists pw s',
    generate_password password type length s
      = Some (pw ++ NUL :: drop (S (Z.to_nat length)) password, s') /\
    c_str (pw ++ NUL :: drop (S (Z.to_nat length)) password) = Some pw /\
    Z.of_nat (List.length pw) = length /\
    Forall (fun c => mem c (charset_of type) = true) pw /\
    (type = UNAMBIGUOUS -> Forall (fun c => mem c excluded_glyphs = false) pw).
Proof.
  intros Htype Hrange Hroom.
  destruct (generate_password_good password type length s Htype ltac:(lia))
    as [pw [s' [Hrun [Hlen Hgood]]]].
  destruct (good_char_parts type pw Hgood) as [Hnul [Hin Hex]].
  exists pw, s'. split; [exact Hrun|]. split; [now apply c_str_string|].
  split; [exact Hlen|]. split; [exact Hin | exact Hex].
Qed.

Lemma generate_password_in_charset_witness :
  exists pw s',
    generate_password (replicate 33 "x"%char) UNAMBIGUOUS 32 example_rand
      = Some (pw ++ NUL :: drop (S (Z.to_nat 32)) (replicate 33 "x"%char), s') /\
    c_str (pw ++ NUL :: drop (S (Z.to_nat 32)) (replicate 33 "x"%char)) = Some pw /\
    Z.of_nat (List.length pw) = 32 /\
    Forall (fun c => mem c (charset_of UNAMBIGUOUS) = true) pw /\
    (UNAMBIGUOUS = UNAMBIGUOUS -> Forall (fun c => mem c excluded_glyphs = false) pw).
Proof.
  apply (generate_password_in_charset (replicate 33 "x"%char) UNAMBIGUOUS 32 example_rand).
  - simpl. tauto.
  - lia.
  - vm_compute. reflexivity.
Defined.

(** C10. For a type outside the five variants [generate_password] writes
    nothing: the buffer, the place of the terminator included, and the
    state of [rand] are what they were, whatever the length. *)
Theorem generate_password_other_type_no_write (password : list ascii)
  (type : PasswordType) (length : Z) (s : rand_state) :
  ~ In type [NUMERIC; ALPHA; MIXED; SECURE; UNAMBIGUOUS] ->
  generate_password password type length s = Some (password, s).
Proof.
  intros Hout. unfold generate_password.
  destruct (Z.eqb_spec type NUMERIC) as [E|_]; [exfalso; apply Hout; rewrite E; simpl; tauto|].
  destruct (Z.eqb_spec type ALPHA) as [E|_]; [exfalso; apply Hout; rewrite E; simpl; tauto|].
  destruct (Z.eqb_spec type MIXED) as [E|_]; [exfalso; apply Hout; rewrite E; simpl; tauto|].
  destruct (Z.eqb_spec type SECURE) as [E|_]; [exfalso; apply Hout; rewrite E; simpl; tauto|].
  destruct (Z.eqb_spec type UNAMBIGUOUS) as [E|_]; [exfalso; apply Hout; rewrite E; simpl; tauto|].
  reflexivity.
Qed.

Lemma generate_password_other_type_no_write_witness :
  generate_password (replicate 33 "x"%char) 5 8 example_rand
    = Some (replicate 33 "x"%char, example_rand)
  /\ c_str (replicate 33 "x"%char) = None.
Proof.
  split.
  - apply (generate_password_other_type_no_write (replicate 33 "x"%char) 5 8 example_rand).
    unfold NUMERIC, ALPHA, MIXED, SECURE, UNAMBIGUOUS. simpl. lia.
  - reflexivity.
Defined.

(** ** The Mixed variant *)

Lemma rand_nonneg (s : rand_state) : 0 <= fst (rand s).
Proof. apply N2Z.is_nonneg. Qed.

(** One character of [generate_mixed] is one two-stage draw. *)
Lemma draw_mixed_two_stage (s : rand_state) :
  draw_mixed s = Some (two_stage_draw s).
Proof.
  unfold draw_mixed, two_stage_draw.
  pose proof (rand_nonneg s) as Hr. destruct (rand s) as [r s1]. simpl in Hr.
  pose proof (rand_nonneg s1) as Hr'. destruct (rand s1) as [r' s2]. simpl in Hr'.
  rewrite (Z.rem_mod_nonneg r 2) by lia. rewrite Zmod_even.
  destruct (Z.even r); simpl negb; cbv iota; do 2 f_equal.
  - rewrite (Z.rem_mod_nonneg r' 10) by lia.
    assert (Hk : 0 <= r' mod 10 < Z.of_nat 10) by (apply Z.mod_pos_bound; lia).
    apply Ascii.eqb_eq.
    exact (forall_below
             (fun k => Ascii.eqb (char_of_int (int_of_char "0" + k))
                                 (nth (Z.to_nat k) digits NUL))
             10 eq_refl _ Hk).
  - rewrite (Z.rem_mod_nonneg r' 26) by lia.
    assert (Hk : 0 <= r' mod 26 < Z.of_nat 26) by (apply Z.mod_pos_bound; lia).
    apply Ascii.eqb_eq.
    exact (forall_below
             (fun k => Ascii.eqb (char_of_int (int_of_char "a" + k))
                                 (nth (Z.to_nat k) lowercase NUL))
             26 eq_refl _ Hk).
Qed.

Lemma draws_mixed_two_stage (n : nat) (s : rand_state) :
  draws draw_mixed n s = Some (two_stage_password n s).
Proof.
  revert s. induction n as [|n IH]; intros s; cbn [draws two_stage_password];
    [reflexivity|].
  rewrite draw_mixed_two_stage. destruct (two_stage_draw s) as [c s1].
  rewrite IH. now destruct (two_stage_password n s1).
Qed.

(** C7. For every length in [6,32] and every state of [rand], the
    characters [generate_mixed] writes are those of the two-stage draw:
    a binary choice between the digits and the small letters, then a draw
    within the chosen charset.  It is not a single draw over the union of
    36 characters: over the two coins and 130 second results each digit
    comes 13 times and each letter 5 times, and on the example state the
    two passwords differ. *)
Theorem generate_mixed_two_stage :
  (forall (password : list ascii) (length : Z) (s : rand_state),
      6 <= length <= 32 ->
      length < sizeof password ->
      generate_mixed password length s
      = Some (fst (two_stage_password (Z.to_nat length) s)
                ++ NUL :: drop (S (Z.to_nat length)) password,
              snd (two_stage_password (Z.to_nat length) s))) /\
  map mixed_weight digits = replicate 10 13%nat /\
  map mixed_weight lowercase = replicate 26 5%nat /\
  fst (two_stage_password 6 example_rand) <> fst (single_draw_password 6 example_rand).
Proof.
  split; [|split; [|split]].
  - intros password length s Hrange Hroom. unfold generate_mixed.
    rewrite generate_draws by lia. now rewrite draws_mixed_two_stage.
  - vm_compute. reflexivity.
  - vm_compute. reflexivity.
  - vm_compute. discriminate.
Qed.

Lemma generate_mixed_two_stage_witness :
  generate_mixed (replicate 33 "x"%char) 6 example_rand
  = Some (list_ascii_of_string "lvjbxx" ++ NUL :: replicate 26 "x"%char,
          snd (two_stage_password 6 example_rand)).
Proof.
  apply (proj1 generate_mixed_two_stage (replicate 33 "x"%char) 6 example_rand).
  - lia.
  - vm_compute. reflexivity.
Defined.

(* ===================================================================== *)
(** * The server's request handler                                        *)
(* ===================================================================== *)

Lemma atoi_string (raw rest : list ascii) :
  forallb (fun c => mem c digits) raw = true ->
  decimal_value raw <= INT_MAX ->
  atoi (raw ++ NUL :: rest) = Some (decimal_value raw).
Proof.
  intros Hd Hfit. unfold atoi. rewrite (atoi_space_string raw rest Hd).
  pose proof (decimal_value_nonneg raw Hd) as Hpos.
  replace (INT_MIN <=? decimal_value raw) with true
    by (symmetry; apply Z.leb_le; unfold INT_MIN; lia).
  replace (decimal_value raw <=? INT_MAX) with true
    by (symmetry; apply Z.leb_le; exact Hfit).
  reflexivity.
Qed.

Lemma password_type_of_table (c : ascii) : password_type_of c = variant_of_code c.
Proof. each_ascii c; reflexivity. Qed.

Lemma variant_of_code_variant (c : ascii) :
  In (variant_of_code c) [NUMERIC; ALPHA; MIXED; SECURE; UNAMBIGUOUS].
Proof. each_ascii c; simpl; tauto. Qed.

Lemma good_char_glyphs (type : PasswordType) (c : ascii) :
  good_char type c = true -> mem c (glyphs_of type) = true.
Proof.
  unfold good_char, glyphs_of. intros H.
  apply andb_true_iff in H as [H Hex]. apply andb_true_iff in H as [Hin _].
  destruct (type =? UNAMBIGUOUS); [|exact Hin].
  apply mem_In. apply filter_In. split; [now apply mem_In | exact Hex].
Qed.

Lemma glyphs_of_unambiguous (c : ascii) :
  mem c (glyphs_of UNAMBIGUOUS) = true -> mem c excluded_glyphs = false.
Proof.
  unfold glyphs_of. change (UNAMBIGUOUS =? UNAMBIGUOUS) with true. cbv iota.
  intros H. apply mem_In, filter_In in H as [_ H]. now apply negb_true_iff in H.
Qed.

(** The handler is the generator of the variant of the type, at the
    length [atoi] reads. *)
Lemma handle_password_request_equation (request : PasswordRequest)
  (response : PasswordResponse) (s : rand_state) :
  handle_password_request request response s
  = match atoi (req_length request) with
    | None => None
    | Some n =>
        match generate_password (resp_password response)
                (variant_of_code (req_type request)) n s with
        | None => None
        | Some (password, s') => Some ({| resp_password := password |}, s')
        end
    end.
Proof. unfold handle_password_request. now rewrite password_type_of_table. Qed.

(** The handler on a length that [atoi] reads as [n], between 0 and the
    room in the response: what the generator of the variant writes, and
    what the password is made of. *)
Lemma handle_password_request_variant (request : PasswordRequest)
  (response : PasswordResponse) (s : rand_state) (n : Z) :
  atoi (req_length request) = Some n ->
  0 <= n < sizeof (resp_password response) ->
  exists pw s',
    generate_password (resp_password response)
      (variant_of_code (req_type request)) n s
    = Some (pw ++ NUL :: drop (S (Z.to_nat n)) (resp_password response), s') /\
    handle_password_request request response s
    = Some ({| resp_password :=
                 pw ++ NUL :: drop (S (Z.to_nat n)) (resp_password response) |}, s') /\
    c_str (pw ++ NUL :: drop (S (Z.to_nat n)) (resp_password response)) = Some pw /\
    Z.of_nat (List.length pw) = n /\
    Forall (fun c => mem c (glyphs_of (variant_of_code (req_type request))) = true) pw.
Proof.
  intros Hn Hroom. rewrite handle_password_request_equation, Hn.
  destruct (generate_password_good (resp_password response)
              (variant_of_code (req_type request)) n s
              (variant_of_code_variant _) Hroom) as [pw [s' [Hrun [Hlen Hgood]]]].
  destruct (good_char_parts _ pw Hgood) as [Hnul _].
  rewrite Hrun. exists pw, s'. split; [reflexivity|]. split; [reflexivity|].
  split; [now apply c_str_string|]. split; [exact Hlen|].
  eapply Forall_impl; [exact Hgood|]. intros c Hc. now apply good_char_glyphs.
Qed.

(** C4. [handle_password_request] maps the type character without
    regard to case: on every request it is the generator of the variant
    of the type (n, a, m, s, u to NUMERIC, ALPHA, MIXED, SECURE,
    UNAMBIGUOUS, every other character to NUMERIC) at the length [atoi]
    reads, so a request with a length field holding a number in [6,32]
    gets a password of that many characters of that variant.  An unknown
    type is no error: it gets a password of that many digits. *)
Theorem handle_password_request_defaults_to_numeric :
  (forall (request : PasswordRequest) (response : PasswordResponse)
          (s : rand_state),
      handle_password_request request response s
      = match atoi (req_length request) with
        | None => None
        | Some n =>
            match generate_password (resp_password response)
                    (variant_of_code (req_type request)) n s with
            | None => None
            | Some (password, s') => Some ({| resp_password := password |}, s')
            end
        end) /\
  (forall (request : PasswordRequest) (response : PasswordResponse)
          (s : rand_state) (raw rest : list ascii),
      req_length request = raw ++ NUL :: rest ->
      is_number raw = true ->
      6 <= decimal_value raw <= 32 ->
      response_wf response ->
      exists pw tail s',
        handle_password_request request response s
          = Some ({| resp_password := pw ++ NUL :: tail |}, s') /\
        c_str (pw ++ NUL :: tail) = Some pw /\
        Z.of_nat (List.length pw) = decimal_value raw /\
        Forall (fun c => mem c (glyphs_of (variant_of_code (req_type request))) = true)
               pw) /\
  (forall c : ascii,
      password_type_of c
      = match lowercase_fold c with
        | "n" => NUMERIC
        | "a" => ALPHA
        | "m" => MIXED
        | "s" => SECURE
        | "u" => UNAMBIGUOUS
        | _ => NUMERIC
        end%char) /\
  map password_type_of (list_ascii_of_string "nNaAmMsSuU")
  = [NUMERIC; NUMERIC; ALPHA; ALPHA; MIXED; MIXED; SECURE; SECURE;
     UNAMBIGUOUS; UNAMBIGUOUS] /\
  (forall c : ascii,
      mem (lowercase_fold c) type_codes = false -> password_type_of c = NUMERIC) /\
  (forall (request : PasswordRequest) (response : PasswordResponse)
          (s : rand_state) (raw rest : list ascii),
      mem (lowercase_fold (req_type request)) type_codes = false ->
      req_length request = raw ++ NUL :: rest ->
      is_number raw = true ->
      6 <= decimal_value raw <= 32 ->
      response_wf response ->
      exists pw tail s',
        handle_password_request request response s
          = Some ({| resp_password := pw ++ NUL :: tail |}, s') /\
        c_str (pw ++ NUL :: tail) = Some pw /\
        Z.of_nat (List.length pw) = decimal_value raw /\
        Forall (fun c => mem c digits = true) pw).
Proof.
  assert (Hdefault : forall c : ascii,
      mem (lowercase_fold c) type_codes = false -> password_type_of c = NUMERIC)
    by (intros c; each_ascii c; intros H; try discriminate H; reflexivity).
  assert (Hanswer : forall (request : PasswordRequest) (response : PasswordResponse)
          (s : rand_state) (raw rest : list ascii),
      req_length request = raw ++ NUL :: rest ->
      is_number raw = true ->
      6 <= decimal_value raw <= 32 ->
      response_wf response ->
      exists pw tail s',
        handle_password_request request response s
          = Some ({| resp_password := pw ++ NUL :: tail |}, s') /\
        c_str (pw ++ NUL :: tail) = Some pw /\
        Z.of_nat (List.length pw) = decimal_value raw /\
        Forall (fun c => mem c (glyphs_of (variant_of_code (req_type request))) = true)
               pw).
  { intros request response s raw rest Hlen Hnum Hrange Hwf.
    unfold is_number in Hnum. apply andb_true_iff in Hnum as [_ Hd].
    assert (Hatoi : atoi (req_length request) = Some (decimal_value raw))
      by (rewrite Hlen; apply atoi_string; [exact Hd | unfold INT_MAX; lia]).
    unfold response_wf, MAX_PASSWORD_LENGTH in Hwf.
    destruct (handle_password_request_variant request response s _ Hatoi ltac:(lia))
      as [pw [s' [_ [Hrun [Hstr [Hn Hin]]]]]].
    exists pw, (drop (S (Z.to_nat (decimal_value raw))) (resp_password response)), s'.
    split; [exact Hrun|]. split; [exact Hstr|]. split; [exact Hn | exact Hin]. }
  split; [exact handle_password_request_equation|]. split; [exact Hanswer|].
  split; [intros c; each_ascii c; reflexivity|]. split; [reflexivity|].
  split; [exact Hdefault|].
  intros request response s raw rest Htype Hlen Hnum Hrange Hwf.
  destruct (Hanswer request response s raw rest Hlen Hnum Hrange Hwf)
    as [pw [tail [s' [Hrun [Hstr [Hn Hin]]]]]].
  exists pw, tail, s'. split; [exact Hrun|]. split; [exact Hstr|]. split; [exact Hn|].
  rewrite <- password_type_of_table, (Hdefault _ Htype) in Hin. exact Hin.
Qed.

Lemma handle_password_request_defaults_to_numeric_witness :
  password_type_of "x" = NUMERIC /\
  (exists pw tail s',
      handle_password_request request_x_8 response_buffer example_rand
        = Some ({| resp_password := pw ++ NUL :: tail |}, s') /\
      c_str (pw ++ NUL :: tail) = Some pw /\
      Z.of_nat (List.length pw) = 8 /\
      Forall (fun c => mem c digits = true) pw) /\
  (exists pw tail s',
      handle_password_request request_s_16 response_buffer example_rand
        = Some ({| resp_password := pw ++ NUL :: tail |}, s') /\
      c_str (pw ++ NUL :: tail) = Some pw /\
      Z.of_nat (List.length pw) = 16 /\
      Forall (fun c => mem c (glyphs_of SECURE) = true) pw).
Proof.
  destruct handle_password_request_defaults_to_numeric
    as [_ [Hanswer [_ [_ [Hdefault Hunknown]]]]].
  split; [apply (Hdefault "x"%char); reflexivity|]. split.
  - apply (Hunknown request_x_8 response_buffer example_rand
             (list_ascii_of_string "8") (replicate 1022 "?"%char)).
    + reflexivity.
    + reflexivity.
    + reflexivity.
    + vm_compute. split; discriminate.
    + reflexivity.
  - apply (Hanswer request_s_16 response_buffer example_rand
             (list_ascii_of_string "16") (replicate 1021 NUL)).
    + reflexivity.
    + reflexivity.
    + vm_compute. split; discriminate.
    + reflexivity.
Defined.

(* ===================================================================== *)
(** * The datagrams                                                       *)
(* ===================================================================== *)

Lemma received_size_nonneg (n : nat) : (Z.of_nat n <? 0) = false.
Proof. apply Z.ltb_ge. lia. Qed.

(** C6, as the claim has it, fails: a datagram of two bytes is not of the
    size of a request, [receive_request] reports success on it, and the
    server goes on and answers; likewise [receive_response] on the
    client. *)
Lemma receive_accepts_short_datagram :
  List.length (list_ascii_of_string "n8") <> sizeof_PasswordRequest /\
  fst (receive_request request_x_8 (RecvDatagram (list_ascii_of_string "n8"))) = true /\
  (exists sent s',
      main_turn {| turn_request := request_x_8;
                   turn_response := response_buffer;
                   turn_recv := RecvDatagram (list_ascii_of_string "n8");
                   turn_sent := 33 |} [] example_rand
      = Some (Running sent s')) /\
  List.length (list_ascii_of_string "abc") <> sizeof_PasswordResponse /\
  fst (receive_response response_buffer (RecvDatagram (list_ascii_of_string "abc"))) = true.
Proof.
  split; [vm_compute; discriminate|]. split; [reflexivity|].
  split; [eexists _, _; vm_compute; reflexivity|].
  split; [vm_compute; discriminate | reflexivity].
Qed.

(** C6, amended. [receive_request] and [receive_response] report failure
    exactly when [recvfrom] fails at the socket; then the exchange aborts:
    the server's turn and the client's turn both leave [main] with
    EXIT_FAILURE.  A datagram of another size than the record is no
    failure: with the [recvfrom] of POSIX datagram sockets it is reported
    as received, its bytes, as many as fit the record, replace the start
    of the record and the bytes after them stay what they were. *)
Theorem receive_fails_on_socket_error_only :
  (forall (request_msg : PasswordRequest) (net : recv_outcome),
      fst (receive_request request_msg net) = false <-> net = RecvError) /\
  (forall (response_msg : PasswordResponse) (net : recv_outcome),
      fst (receive_response response_msg net) = false <-> net = RecvError) /\
  (forall (t : turn) (sent : list (list ascii)) (s : rand_state),
      turn_recv t = RecvError ->
      main_turn t sent s = Some (Exited EXIT_FAILURE sent s)) /\
  (forall (c : ClientSession.client) (request : PasswordRequest)
          (stdin : list (list ascii)) (out : list ascii)
          (network : list (Z * recv_outcome)),
      ClientSession.handle_user_input (ClientSession.cl_request c)
        (ClientSession.cl_stdin c) = Some (true, request, stdin, out) ->
      keep_generating (req_type request) "q" = true ->
      ClientSession.cl_network c
      = (Z.of_nat sizeof_PasswordRequest, RecvError) :: network ->
      exists c',
        ClientSession.main_turn c
        = Some (ClientSession.ClientExited ClientSession.EXIT_FAILURE c') /\
        ClientSession.cl_sent c'
        = ClientSession.cl_sent c ++ [request_datagram request] /\
        forall n,
          ClientSession.main_loop (S n) c
          = Some (ClientSession.ClientExited ClientSession.EXIT_FAILURE c')) /\
  (forall (request_msg : PasswordRequest) (payload : list ascii),
      receive_request request_msg (RecvDatagram payload)
      = (true,
         request_of_bytes
           (take sizeof_PasswordRequest payload
              ++ drop (List.length (take sizeof_PasswordRequest payload))
                      (request_bytes request_msg)))) /\
  (forall (response_msg : PasswordResponse) (payload : list ascii),
      receive_response response_msg (RecvDatagram payload)
      = (true,
         response_of_bytes
           (take sizeof_PasswordResponse payload
              ++ drop (List.length (take sizeof_PasswordResponse payload))
                      (response_bytes response_msg)))).
Proof.
  split; [|split; [|split; [|split; [|split]]]].
  - intros request_msg [|payload]; unfold receive_request, recvfrom.
    + split; reflexivity.
    + rewrite received_size_nonneg. split; discriminate.
  - intros response_msg [|payload]; unfold receive_response, recvfrom.
    + split; reflexivity.
    + rewrite received_size_nonneg. split; discriminate.
  - intros t sent s Hrecv. unfold main_turn, receive_request, recvfrom.
    rewrite Hrecv. reflexivity.
  - intros c request stdin out network Hin Hkeep Hnet.
    assert (Hturn : exists c',
      ClientSession.main_turn c
      = Some (ClientSession.ClientExited ClientSession.EXIT_FAILURE c') /\
      ClientSession.cl_sent c'
      = ClientSession.cl_sent c ++ [request_datagram request]).
    { unfold ClientSession.main_turn. rewrite Hin. cbn [negb]. rewrite Hkeep.
      cbn [negb]. rewrite Hnet. unfold send_request. rewrite Z.eqb_refl.
      cbn [negb]. unfold receive_response, recvfrom.
      change (-1 <? 0) with true. cbv iota. cbn [negb].
      match goal with
      | |- context [ClientSession.error_handler ?m] =>
          change (ClientSession.error_handler m)
            with (Some (written (ClientSession.error_handler m)))
      end.
      eexists. split; reflexivity. }
    destruct Hturn as [c' [Hturn Hsent]]. exists c'.
    split; [exact Hturn|]. split; [exact Hsent|].
    intros n. cbn [ClientSession.main_loop]. now rewrite Hturn.
  - intros request_msg payload. unfold receive_request, recvfrom.
    now rewrite received_size_nonneg.
  - intros response_msg payload. unfold receive_response, recvfrom.
    now rewrite received_size_nonneg.
Qed.

(** The user asks for twelve digits, the request leaves, and [recvfrom]
    fails: the client has sent one datagram and leaves [main] with
    EXIT_FAILURE at this turn, however many turns the loop is given. *)
Lemma receive_fails_on_socket_error_only_witness :
  exists c',
    ClientSession.main_loop 3 (client_typing ["n 12"]%string [(1025, RecvError)])
    = Some (ClientSession.ClientExited ClientSession.EXIT_FAILURE c') /\
    List.length (ClientSession.cl_sent c') = 1%nat.
Proof.
  assert (E : exists r out,
             ClientSession.handle_user_input request_x_8 [typed_line "n 12"]
             = Some (true, r, [], out) /\ req_type r = "n"%char)
    by (eexists _, _; split; [vm_compute; reflexivity | reflexivity]).
  destruct E as [r [out [E Hn]]].
  destruct receive_fails_on_socket_error_only as (_ & _ & _ & Hclient & _).
  destruct (Hclient (client_typing ["n 12"]%string [(1025, RecvError)])
              r [] out []) as [c' [_ [Hsent Hloop]]];
    [exact E | rewrite Hn; reflexivity | reflexivity |].
  exists c'. split; [apply Hloop|].
  rewrite Hsent. reflexivity.
Defined.

(** C8. A request sent by the client and received by the server comes out
    with the same type and the same length field, byte for byte. *)
Theorem request_round_trip (r old : PasswordRequest) :
  request_wf r ->
  request_wf old ->
  receive_request old (RecvDatagram (request_datagram r)) = (true, r).
Proof.
  unfold request_wf. intros Hr Hold.
  unfold receive_request, recvfrom, request_datagram, sendto_payload.
  assert (Hsize : List.length (request_bytes r) = sizeof_PasswordRequest)
    by (unfold request_bytes, sizeof_PasswordRequest; simpl; now rewrite Hr).
  assert (Hsize' : List.length (request_bytes old) = sizeof_PasswordRequest)
    by (unfold request_bytes, sizeof_PasswordRequest; simpl; now rewrite Hold).
  rewrite (take_ge (request_bytes r)) by (rewrite Hsize; apply Nat.le_refl).
  rewrite (take_ge (request_bytes r)) by (rewrite Hsize; apply Nat.le_refl).
  rewrite received_size_nonneg.
  rewrite drop_ge by (rewrite Hsize, Hsize'; apply Nat.le_refl).
  rewrite app_nil_r. now destruct r.
Qed.

Lemma request_round_trip_witness :
  receive_request request_x_8 (RecvDatagram (request_datagram request_s_16))
  = (true, request_s_16)
  /\ req_type request_s_16 = "s"%char
  /\ c_str (req_length request_s_16) = Some (list_ascii_of_string "16").
Proof.
  split; [|split; reflexivity].
  apply (request_round_trip request_s_16 request_x_8); reflexivity.
Defined.

(* ===================================================================== *)
(** * Seeding                                                             *)
(* ===================================================================== *)

Lemma draw_numeric_no_srand : no_srand draw_numeric.
Proof. intros s c s'. unfold draw_numeric, rand. now intros [= _ <-]. Qed.

Lemma draw_alpha_no_srand : no_srand draw_alpha.
Proof. intros s c s'. unfold draw_alpha, rand. now intros [= _ <-]. Qed.

Lemma draw_mixed_no_srand : no_srand draw_mixed.
Proof.
  intros s c s'. unfold draw_mixed, rand.
  destruct (negb _); now intros [= _ <-].
Qed.

Lemma draw_charset_no_srand (charset : list ascii) : no_srand (draw_charset charset).
Proof.
  intros s c s'. unfold draw_charset, rand.
  destruct (load _ _); [|discriminate]. now intros [= _ <-].
Qed.

Lemma fill_no_srand (d : draw) :
  no_srand d ->
  forall n i password s password' s',
    fill d n i password s = Some (password', s') ->
    rs_srand_calls s' = rs_srand_calls s.
Proof.
  intros Hd. induction n as [|n IH]; intros i password s password' s'; simpl.
  - now intros [= _ <-].
  - destruct (d s) as [[c s1]|] eqn:Ed; [|discriminate].
    destruct (store password i c) as [password1|]; [|discriminate].
    intros H. rewrite (IH _ _ _ _ _ H). exact (Hd _ _ _ Ed).
Qed.

Lemma generate_no_srand (d : draw) :
  no_srand d ->
  forall password length s password' s',
    generate d password length s = Some (password', s') ->
    rs_srand_calls s' = rs_srand_calls s.
Proof.
  intros Hd password length s password' s'. unfold generate.
  destruct (fill d (Z.to_nat length) 0 password s) as [[password1 s1]|] eqn:E;
    [|discriminate].
  destruct (store password1 length NUL); [|discriminate].
  intros [= _ <-]. exact (fill_no_srand d Hd _ _ _ _ _ _ E).
Qed.

Lemma generate_password_no_srand (password : list ascii) (type : PasswordType)
  (length : Z) (s : rand_state) (password' : list ascii) (s' : rand_state) :
  generate_password password type length s = Some (password', s') ->
  rs_srand_calls s' = rs_srand_calls s.
Proof.
  unfold generate_password.
  destruct (type =? NUMERIC); [apply generate_no_srand, draw_numeric_no_srand|].
  destruct (type =? ALPHA); [apply generate_no_srand, draw_alpha_no_srand|].
  destruct (type =? MIXED); [apply generate_no_srand, draw_mixed_no_srand|].
  destruct (type =? SECURE); [apply generate_no_srand, draw_charset_no_srand|].
  destruct (type =? UNAMBIGUOUS); [apply generate_no_srand, draw_charset_no_srand|].
  now intros [= _ <-].
Qed.

Lemma main_turn_no_srand (t : turn) (sent : list (list ascii)) (s : rand_state)
  (p : process) :
  main_turn t sent s = Some p ->
  rs_srand_calls (process_rand p) = rs_srand_calls s.
Proof.
  unfold main_turn. destruct (receive_request _ _) as [received request].
  destruct received; simpl; [|now intros [= <-]].
  unfold handle_password_request. destruct (atoi _); [|discriminate].
  destruct (generate_password _ _ _ s) as [[password s1]|] eqn:E; [|discriminate].
  apply generate_password_no_srand in E.
  destruct (negb _); intros [= <-]; exact E.
Qed.

Lemma main_loop_no_srand (turns : list turn) (sent : list (list ascii))
  (s : rand_state) (p : process) :
  main_loop turns sent s = Some p ->
  rs_srand_calls (process_rand p) = rs_srand_calls s.
Proof.
  revert sent s. induction turns as [|t turns IH]; intros sent s; simpl.
  - now intros [= <-].
  - destruct (main_turn t sent s) as [[sent1 s1|status sent1 s1]|] eqn:E;
      [| |discriminate]; apply main_turn_no_srand in E; simpl in E.
    + intros H. rewrite (IH _ _ H). exact E.
    + intros [= <-]. exact E.
Qed.

(** C5, on the code. Whatever the server meets, it never calls [srand]:
    the count of seedings after any number of turns is the count at
    process start, which is zero, not one. *)
Theorem main_never_calls_srand (created_socket bind_result : Z)
  (start : rand_state) (turns : list turn) (p : process) :
  main created_socket bind_result start turns = Some p ->
  rs_srand_calls (process_rand p) = rs_srand_calls start.
Proof.
  unfold main. destruct (created_socket <? 0); [now intros [= <-]|].
  destruct (bind_result <? 0); [now intros [= <-]|].
  apply main_loop_no_srand.
Qed.

Lemma main_never_calls_srand_witness :
  exists p, main 3 0 example_rand [turn_n_8; turn_n_8] = Some p /\
            rs_srand_calls (process_rand p) = O.
Proof.
  destruct (main 3 0 example_rand [turn_n_8; turn_n_8]) as [p|] eqn:E;
    [|vm_compute in E; discriminate E].
  exists p. split; [reflexivity|].
  exact (main_never_calls_srand 3 0 example_rand [turn_n_8; turn_n_8] p E).
Defined.

(* ===================================================================== *)
(** * More on the generators                                              *)
(* ===================================================================== *)

Lemma store_some (a a' : list ascii) (i : Z) (c : ascii) :
  store a i c = Some a' ->
  0 <= i < sizeof a /\ List.length a' = List.length a.
Proof.
  unfold store. destruct (0 <=? i) eqn:E1; [|discriminate].
  destruct (i <? sizeof a) eqn:E2; [|discriminate]. simpl.
  intros [= <-]. apply Z.leb_le in E1. apply Z.ltb_lt in E2.
  split; [lia | apply length_insert].
Qed.

Lemma fill_length (d : draw) (n : nat) (i : Z) (password : list ascii)
  (s : rand_state) (password' : list ascii) (s' : rand_state) :
  fill d n i password s = Some (password', s') ->
  List.length password' = List.length password.
Proof.
  revert i password s. induction n as [|n IH]; intros i password s; simpl.
  - now intros [= <- _].
  - destruct (d s) as [[c s1]|]; [|discriminate].
    destruct (store password i c) as [password1|] eqn:E; [|discriminate].
    intros H. rewrite (IH _ _ _ H). exact (proj2 (store_some _ _ _ _ E)).
Qed.

(** A generator that returns has stayed inside the array. *)
Lemma generate_some (d : draw) (password : list ascii) (length : Z)
  (s : rand_state) (password' : list ascii) (s' : rand_state) :
  generate d password length s = Some (password', s') ->
  0 <= length < sizeof password /\ List.length password' = List.length password.
Proof.
  unfold generate.
  destruct (fill d (Z.to_nat length) 0 password s) as [[password1 s1]|] eqn:E;
    [|discriminate].
  destruct (store password1 length NUL) as [password2|] eqn:E'; [|discriminate].
  intros [= <- _]. apply fill_length in E. apply store_some in E' as [Hin Hlen].
  unfold sizeof in *. rewrite E in Hin. rewrite Hlen, E. split; [exact Hin | reflexivity].
Qed.

Lemma generate_password_some (password : list ascii) (type : PasswordType)
  (length : Z) (s : rand_state) (password' : list ascii) (s' : rand_state) :
  In type [NUMERIC; ALPHA; MIXED; SECURE; UNAMBIGUOUS] ->
  generate_password password type length s = Some (password', s') ->
  0 <= length < sizeof password /\ List.length password' = List.length password.
Proof.
  intros Htype. simpl in Htype.
  destruct Htype as [<-|[<-|[<-|[<-|[<-|[]]]]]]; unfold generate_password; simpl;
    apply generate_some.
Qed.

(** X1. The generators check no bound themselves: for the five types
    [generate_password] has a defined result exactly when the length is
    not negative and the buffer has room for the characters and the
    terminator. *)
Theorem generate_password_defined_iff (password : list ascii) (type : PasswordType)
  (length : Z) (s : rand_state) :
  In type [NUMERIC; ALPHA; MIXED; SECURE; UNAMBIGUOUS] ->
  (is_Some (generate_password password type length s)
   <-> 0 <= length < sizeof password).
Proof.
  intros Htype. split.
  - intros [[password' s'] H].
    exact (proj1 (generate_password_some _ _ _ _ _ _ Htype H)).
  - intros Hroom.
    destruct (generate_password_good password type length s Htype Hroom)
      as [pw [s' [H _]]].
    eexists. exact H.
Qed.

Lemma generate_password_defined_iff_witness :
  (is_Some (generate_password (replicate 33 "?"%char) SECURE 33 example_rand)
   <-> 0 <= 33 < sizeof (replicate 33 "?"%char)) /\
  generate_password (replicate 33 "?"%char) SECURE 33 example_rand = None /\
  generate_password (replicate 33 "?"%char) SECURE (-1) example_rand = None.
Proof.
  split; [|split; reflexivity].
  apply (generate_password_defined_iff (replicate 33 "?"%char) SECURE 33 example_rand).
  simpl. tauto.
Defined.

Lemma rand_calls_rand : forall s i,
  rs_stream (snd (rand s)) i = rs_stream s (i + 1)%nat.
Proof. intros s i. simpl. now rewrite Nat.add_1_r. Qed.

Lemma draw_numeric_calls : calls_rand 1 draw_numeric.
Proof.
  intros s c s'. unfold draw_numeric. pose proof (rand_calls_rand s) as H.
  destruct (rand s) as [r s1]. intros [= _ <-]. exact H.
Qed.

Lemma draw_alpha_calls : calls_rand 1 draw_alpha.
Proof.
  intros s c s'. unfold draw_alpha. pose proof (rand_calls_rand s) as H.
  destruct (rand s) as [r s1]. intros [= _ <-]. exact H.
Qed.

Lemma draw_charset_calls (charset : list ascii) : calls_rand 1 (draw_charset charset).
Proof.
  intros s c s'. unfold draw_charset. pose proof (rand_calls_rand s) as H.
  destruct (rand s) as [r s1]. destruct (load _ _); [|discriminate].
  intros [= _ <-]. exact H.
Qed.

Lemma draw_mixed_calls : calls_rand 2 draw_mixed.
Proof.
  intros s c s'. unfold draw_mixed. pose proof (rand_calls_rand s) as H.
  destruct (rand s) as [r s1]. pose proof (rand_calls_rand s1) as H1.
  destruct (rand s1) as [r' s2]. simpl in H, H1.
  destruct (negb _); intros [= _ <-]; intros i; rewrite H1, H; f_equal; lia.
Qed.

Lemma fill_calls (d : draw) (k : nat) :
  calls_rand k d ->
  forall n i password s password' s',
    fill d n i password s = Some (password', s') ->
    forall j, rs_stream s' j = rs_stream s (j + n * k)%nat.
Proof.
  intros Hd. induction n as [|n IH]; intros i password s password' s'; simpl.
  - intros [= _ <-] j. now rewrite Nat.add_0_r.
  - destruct (d s) as [[c s1]|] eqn:Ed; [|discriminate].
    destruct (store password i c) as [password1|]; [|discriminate].
    intros H j. rewrite (IH _ _ _ _ _ H j), (Hd _ _ _ Ed). f_equal. lia.
Qed.

Lemma generate_calls (d : draw) (k : nat) :
  calls_rand k d ->
  forall password length s password' s',
    generate d password length s = Some (password', s') ->
    forall j, rs_stream s' j = rs_stream s (j + Z.to_nat length * k)%nat.
Proof.
  intros Hd password length s password' s'. unfold generate.
  destruct (fill d (Z.to_nat length) 0 password s) as [[password1 s1]|] eqn:E;
    [|discriminate].
  destruct (store password1 length NUL); [|discriminate].
  intros [= _ <-]. exact (fill_calls d k Hd _ _ _ _ _ _ E).
Qed.

(** X2. A call of [generate_password] that returns has taken exactly
    [length] results of [rand], twice as many for MIXED and none for a
    type outside the five: the next call goes on in the same sequence
    where this one stopped. *)
Theorem generate_password_rand_calls (password : list ascii) (type : PasswordType)
  (length : Z) (s : rand_state) (password' : list ascii) (s' : rand_state) :
  generate_password password type length s = Some (password', s') ->
  forall j, rs_stream s' j = rs_stream s (j + rand_calls type length)%nat.
Proof.
  unfold generate_password, rand_calls.
  destruct (Z.eqb_spec type NUMERIC) as [->|H0].
  { intros H j. rewrite (generate_calls _ 1 draw_numeric_calls _ _ _ _ _ H j).
    simpl. f_equal. lia. }
  destruct (Z.eqb_spec type ALPHA) as [->|H1].
  { intros H j. rewrite (generate_calls _ 1 draw_alpha_calls _ _ _ _ _ H j).
    simpl. f_equal. lia. }
  destruct (Z.eqb_spec type MIXED) as [->|H2].
  { intros H j. rewrite (generate_calls _ 2 draw_mixed_calls _ _ _ _ _ H j).
    f_equal. lia. }
  destruct (Z.eqb_spec type SECURE) as [->|H3].
  { intros H j.
    rewrite (generate_calls _ 1 (draw_charset_calls _) _ _ _ _ _ H j).
    simpl. f_equal. lia. }
  destruct (Z.eqb_spec type UNAMBIGUOUS) as [->|H4].
  { intros H j.
    rewrite (generate_calls _ 1 (draw_charset_calls _) _ _ _ _ _ H j).
    simpl. f_equal. lia. }
  intros [= _ <-] j.
  replace ((0 <=? type) && (type <=? UNAMBIGUOUS)) with false.
  - now rewrite Nat.add_0_r.
  - symmetry. apply andb_false_iff.
    unfold NUMERIC, ALPHA, MIXED, SECURE, UNAMBIGUOUS in *.
    destruct (Z.leb_spec 0 type); [right; apply Z.leb_gt; lia | now left].
Qed.

Lemma generate_password_rand_calls_witness :
  exists password' s',
    generate_password (replicate 33 "?"%char) MIXED 6 example_rand
      = Some (password', s') /\
    forall j, rs_stream s' j = rs_stream example_rand (j + 12)%nat.
Proof.
  destruct (generate_password (replicate 33 "?"%char) MIXED 6 example_rand)
    as [[password' s']|] eqn:E; [|vm_compute in E; discriminate E].
  exists password', s'. split; [reflexivity|].
  exact (generate_password_rand_calls _ MIXED 6 example_rand password' s' E).
Defined.

(* ===================================================================== *)
(** * More on the server                                                  *)
(* ===================================================================== *)

Lemma password_type_of_variant (c : ascii) :
  In (password_type_of c) [NUMERIC; ALPHA; MIXED; SECURE; UNAMBIGUOUS].
Proof.
  unfold password_type_of.
  repeat (match goal with |- context [if ?b then _ else _] => destruct b end);
    simpl; tauto.
Qed.

(** The handler on a length that [atoi] reads as [n], between 0 and the
    room in the response. *)
Lemma handle_password_request_good (request : PasswordRequest)
  (response : PasswordResponse) (s : rand_state) (n : Z) :
  atoi (req_length request) = Some n ->
  0 <= n < sizeof (resp_password response) ->
  exists pw s',
    handle_password_request request response s
      = Some ({| resp_password :=
                   pw ++ NUL :: drop (S (Z.to_nat n)) (resp_password response) |}, s') /\
    c_str (pw ++ NUL :: drop (S (Z.to_nat n)) (resp_password response)) = Some pw /\
    Z.of_nat (List.length pw) = n /\
    Forall (fun c => mem c (charset_of (password_type_of (req_type request))) = true) pw.
Proof.
  intros Hn Hroom. unfold handle_password_request. rewrite Hn.
  destruct (generate_password_good (resp_password response)
              (password_type_of (req_type request)) n s
              (password_type_of_variant _) Hroom) as [pw [s' [Hrun [Hlen Hgood]]]].
  destruct (good_char_parts _ pw Hgood) as [Hnul [Hin _]].
  rewrite Hrun. exists pw, s'. split; [reflexivity|].
  split; [now apply c_str_string|]. split; assumption.
Qed.

Lemma handle_password_request_some (request : PasswordRequest)
  (response : PasswordResponse) (s : rand_state)
  (response' : PasswordResponse) (s' : rand_state) :
  handle_password_request request response s = Some (response', s') ->
  exists n, atoi (req_length request) = Some n /\
            0 <= n < sizeof (resp_password response).
Proof.
  unfold handle_password_request.
  destruct (atoi (req_length request)) as [n|]; [|discriminate].
  destruct (generate_password _ _ n s) as [[password s1]|] eqn:E; [|discriminate].
  intros _. exists n. split; [reflexivity|].
  apply generate_password_some in E as [Hn _]; [exact Hn|].
  apply password_type_of_variant.
Qed.

(** X3. The server does not validate the length it receives: with a
    response record of the declared size, [handle_password_request] has a
    defined result exactly when [atoi] reads the length field as a number
    from 0 to 32; a larger or a negative one makes the generator write
    outside [response->password]. *)
Theorem handle_password_request_defined_iff (request : PasswordRequest)
  (response : PasswordResponse) (s : rand_state) :
  response_wf response ->
  (is_Some (handle_password_request request response s)
   <-> exists n, atoi (req_length request) = Some n /\ 0 <= n <= 32).
Proof.
  unfold response_wf, MAX_PASSWORD_LENGTH. intros Hwf. split.
  - intros [[response' s'] H].
    destruct (handle_password_request_some _ _ _ _ _ H) as [n [Hn Hroom]].
    exists n. split; [exact Hn | lia].
  - intros [n [Hn Hrange]].
    destruct (handle_password_request_good request response s n Hn ltac:(lia))
      as [pw [s' [H _]]].
    eexists. exact H.
Qed.

Lemma handle_password_request_defined_iff_witness :
  handle_password_request
    {| req_type := "n"; req_length := literal "33" ++ replicate 1021 NUL |}
    response_buffer example_rand = None /\
  handle_password_request
    {| req_type := "n"; req_length := literal "-1" ++ replicate 1021 NUL |}
    response_buffer example_rand = None /\
  is_Some (handle_password_request
             {| req_type := "n"; req_length := literal "0" ++ replicate 1022 NUL |}
             response_buffer example_rand).
Proof.
  split; [reflexivity|]. split; [reflexivity|].
  apply (handle_password_request_defined_iff
           {| req_type := "n"; req_length := literal "0" ++ replicate 1022 NUL |}
           response_buffer example_rand).
  - reflexivity.
  - exists 0. split; [reflexivity | lia].
Defined.

(** X4. For every type character and every length field that [atoi]
    reads as [n] from 0 to 32, the handler leaves in the response what the
    generator of the variant of the type (n, a, m, s, u in either case,
    NUMERIC for every other character) writes for the length [n]: a
    terminated password of exactly [n] characters, each of the charset of
    that variant and, for UNAMBIGUOUS, none of the excluded glyphs; the
    bytes of the record behind the terminator stay what they were before
    the call, and the record keeps its size. *)
Theorem handle_password_request_password (request : PasswordRequest)
  (response : PasswordResponse) (s : rand_state) (n : Z) :
  response_wf response ->
  atoi (req_length request) = Some n ->
  0 <= n <= 32 ->
  exists pw s',
    generate_password (resp_password response)
      (variant_of_code (req_type request)) n s
    = Some (pw ++ NUL :: drop (S (Z.to_nat n)) (resp_password response), s') /\
    handle_password_request request response s
      = Some ({| resp_password :=
                   pw ++ NUL :: drop (S (Z.to_nat n)) (resp_password response) |}, s') /\
    c_str (pw ++ NUL :: drop (S (Z.to_nat n)) (resp_password response)) = Some pw /\
    Z.of_nat (List.length pw) = n /\
    Forall (fun c => mem c (glyphs_of (variant_of_code (req_type request))) = true) pw /\
    (variant_of_code (req_type request) = UNAMBIGUOUS ->
     Forall (fun c => mem c excluded_glyphs = false) pw) /\
    sizeof (pw ++ NUL :: drop (S (Z.to_nat n)) (resp_password response))
    = MAX_PASSWORD_LENGTH + 1.
Proof.
  unfold response_wf, MAX_PASSWORD_LENGTH. intros Hwf Hn Hrange.
  destruct (handle_password_request_variant request response s n Hn ltac:(lia))
    as [pw [s' [Hgen [Hrun [Hstr [Hlen Hin]]]]]].
  exists pw, s'.
  split; [exact Hgen|]. split; [exact Hrun|]. split; [exact Hstr|].
  split; [exact Hlen|]. split; [exact Hin|]. split.
  - intros Hu. rewrite Hu in Hin.
    eapply Forall_impl; [exact Hin|]. exact glyphs_of_unambiguous.
  - unfold sizeof in *. rewrite length_app. cbn [List.length].
    rewrite length_drop. lia.
Qed.

(** An uppercase [U] with the length 3, below the minimum of the
    protocol: three characters, none of them an excluded glyph. *)
Lemma handle_password_request_password_witness :
  exists pw s',
    generate_password (resp_password response_buffer) UNAMBIGUOUS 3 example_rand
    = Some (pw ++ NUL :: drop (S (Z.to_nat 3)) (resp_password response_buffer), s') /\
    handle_password_request
      {| req_type := "U"; req_length := literal "3" ++ replicate 1022 NUL |}
      response_buffer example_rand
      = Some ({| resp_password :=
                   pw ++ NUL :: drop (S (Z.to_nat 3)) (resp_password response_buffer) |}, s') /\
    c_str (pw ++ NUL :: drop (S (Z.to_nat 3)) (resp_password response_buffer)) = Some pw /\
    Z.of_nat (List.length pw) = 3 /\
    Forall (fun c => mem c (glyphs_of UNAMBIGUOUS) = true) pw /\
    Forall (fun c => mem c excluded_glyphs = false) pw.
Proof.
  destruct (handle_password_request_password
              {| req_type := "U"; req_length := literal "3" ++ replicate 1022 NUL |}
              response_buffer example_rand 3)
    as [pw [s' [H1 [H2 [H3 [H4 [H5 [H6 _]]]]]]]];
    [reflexivity | reflexivity | lia |].
  exists pw, s'. repeat (split; [assumption|]). apply H6. reflexivity.
Defined.

(** ** What [atoi] lets through *)

Lemma atoi_digits_stop (raw rest : list ascii) (c : ascii) (acc : Z) :
  forallb (fun c => mem c digits) raw = true ->
  mem c digits = false ->
  atoi_digits acc (raw ++ c :: rest)
  = Some (acc * 10 ^ Z.of_nat (List.length raw) + decimal_value raw).
Proof.
  intros Hd Hc. revert acc. induction raw as [|x raw IH]; intros acc; simpl.
  - rewrite isdigit_mem, Hc. f_equal. lia.
  - simpl in Hd. apply andb_true_iff in Hd as [Hx Hd].
    rewrite isdigit_mem, Hx, (IH Hd). f_equal. unfold digit_value.
    rewrite Nat2Z.inj_succ, Z.pow_succ_r by lia. ring.
Qed.

Lemma atoi_space_blanks (ws p : list ascii) :
  forallb blank ws = true -> atoi_space (ws ++ p) = atoi_space p.
Proof.
  induction ws as [|w ws IH]; simpl; [reflexivity|].
  intros H. apply andb_true_iff in H as [Hw Hws]. unfold blank in Hw.
  rewrite Hw. exact (IH Hws).
Qed.

(** The digits of a number, and the character that ends them, at the
    start of what [atoi_space] reads. *)
Lemma atoi_space_number_stop (raw rest : list ascii) (c : ascii) :
  is_number raw = true ->
  mem c digits = false ->
  atoi_space (raw ++ c :: rest) = Some (decimal_value raw).
Proof.
  unfold is_number. intros Hnum Hc. apply andb_true_iff in Hnum as [Hne Hd].
  pose proof (atoi_digits_stop raw rest c 0 Hd Hc) as Hv.
  rewrite Z.mul_0_l, Z.add_0_l in Hv. rewrite <- Hv.
  destruct raw as [|x raw]; [discriminate Hne|].
  apply atoi_starts_at_digits. left. simpl in Hd.
  now apply andb_true_iff in Hd as [? _].
Qed.

(** The loop of [control_length] stops with false at a character that is
    neither a digit nor the terminator. *)
Lemma control_length_loop_stop (raw rest : list ascii) (c : ascii) :
  forallb (fun c => mem c digits) raw = true ->
  mem c digits = false -> c <> NUL ->
  control_length_loop (raw ++ c :: rest) = Some false.
Proof.
  intros Hd Hc Hnul. induction raw as [|x raw IH]; simpl.
  - destruct (Ascii.eqb_spec c NUL); [contradiction|].
    now rewrite isdigit_mem, Hc.
  - simpl in Hd. apply andb_true_iff in Hd as [Hx Hd].
    destruct (Ascii.eqb_spec x NUL) as [->|_]; [discriminate Hx|].
    rewrite isdigit_mem, Hx. simpl. exact (IH Hd).
Qed.

Lemma blank_not_digit (w : ascii) :
  blank w = true -> w <> NUL /\ mem w digits = false.
Proof.
  unfold blank. each_ascii w; intros Hw; try discriminate Hw;
    (split; [discriminate | reflexivity]).
Qed.

(** X5. The server reads the length with [atoi] alone, so it takes what
    the client's [control_length] refuses.  On a length field made of
    white space (possibly none), then one digit or more, then a character
    that is no digit (a blank, a letter, a sign, or the terminator when
    white space came first), [control_length] is false; the handler reads
    the digits all the same: when they say at most 32 it returns a
    terminated password of that many characters of the variant of the
    type, and when they say more it has no defined result (the generator
    writes behind the 33 bytes of [response->password], or the number
    does not fit an [int]). *)
Theorem server_takes_lengths_the_client_refuses (request : PasswordRequest)
  (response : PasswordResponse) (s : rand_state)
  (ws raw rest : list ascii) (c : ascii) :
  response_wf response ->
  req_length request = ws ++ raw ++ c :: rest ->
  forallb blank ws = true ->
  is_number raw = true ->
  mem c digits = false ->
  ws <> [] \/ c <> NUL ->
  control_length (req_length request) MIN_PASSWORD_LENGTH MAX_PASSWORD_LENGTH
  = Some false /\
  (decimal_value raw <= 32 ->
   exists pw tail s',
     handle_password_request request response s
       = Some ({| resp_password := pw ++ NUL :: tail |}, s') /\
     c_str (pw ++ NUL :: tail) = Some pw /\
     Z.of_nat (List.length pw) = decimal_value raw /\
     Forall (fun x => mem x (glyphs_of (variant_of_code (req_type request))) = true)
            pw) /\
  (32 < decimal_value raw ->
   handle_password_request request response s = None).
Proof.
  intros Hwf Hlen Hws Hnum Hc Hodd.
  pose proof Hnum as Hparts. unfold is_number in Hparts.
  apply andb_true_iff in Hparts as [_ Hd].
  pose proof (decimal_value_nonneg raw Hd) as Hpos.
  assert (Hspace : atoi_space (req_length request) = Some (decimal_value raw)).
  { rewrite Hlen, (atoi_space_blanks ws _ Hws).
    exact (atoi_space_number_stop raw rest c Hnum Hc). }
  unfold response_wf, MAX_PASSWORD_LENGTH in Hwf.
  split; [|split].
  - rewrite Hlen. unfold control_length.
    assert (Hloop : control_length_loop (ws ++ raw ++ c :: rest) = Some false).
    { destruct ws as [|w ws].
      - destruct Hodd as [Hodd|Hodd]; [contradiction|].
        exact (control_length_loop_stop raw rest c Hd Hc Hodd).
      - simpl in Hws. apply andb_true_iff in Hws as [Hw _].
        destruct (blank_not_digit w Hw) as [Hwn Hwd].
        exact (control_length_loop_stop [] (ws ++ raw ++ c :: rest) w
                 eq_refl Hwd Hwn). }
    now rewrite Hloop.
  - intros Hfit.
    assert (Hatoi : atoi (req_length request) = Some (decimal_value raw)).
    { unfold atoi. rewrite Hspace.
      replace (INT_MIN <=? decimal_value raw) with true
        by (symmetry; apply Z.leb_le; unfold INT_MIN; lia).
      replace (decimal_value raw <=? INT_MAX) with true
        by (symmetry; apply Z.leb_le; unfold INT_MAX; lia).
      reflexivity. }
    destruct (handle_password_request_variant request response s _ Hatoi ltac:(lia))
      as [pw [s' [_ [Hrun [Hstr [Hn Hin]]]]]].
    exists pw, (drop (S (Z.to_nat (decimal_value raw))) (resp_password response)), s'.
    split; [exact Hrun|]. split; [exact Hstr|]. split; assumption.
  - intros Hover.
    destruct (handle_password_request request response s) as [[response' s']|] eqn:E;
      [|reflexivity].
    destruct (handle_password_request_some _ _ _ _ _ E) as [n [Hn Hroom]].
    unfold atoi in Hn. rewrite Hspace in Hn.
    destruct ((INT_MIN <=? decimal_value raw) && (decimal_value raw <=? INT_MAX));
      [|discriminate Hn].
    injection Hn as <-. lia.
Qed.

(** The field ["12 "], digits and then a blank: refused by the client,
    twelve letters from the server.  The field [" 99"]: refused by the
    client, and the server writes behind the record. *)
Lemma server_takes_lengths_the_client_refuses_witness :
  (control_length (list_ascii_of_string "12 " ++ replicate 1021 NUL)
                  MIN_PASSWORD_LENGTH MAX_PASSWORD_LENGTH = Some false /\
   exists pw tail s',
     handle_password_request
       {| req_type := "a";
          req_length := list_ascii_of_string "12 " ++ replicate 1021 NUL |}
       response_buffer example_rand
       = Some ({| resp_password := pw ++ NUL :: tail |}, s') /\
     c_str (pw ++ NUL :: tail) = Some pw /\
     Z.of_nat (List.length pw) = 12 /\
     Forall (fun x => mem x (glyphs_of ALPHA) = true) pw) /\
  (control_length (list_ascii_of_string " 99" ++ replicate 1021 NUL)
                  MIN_PASSWORD_LENGTH MAX_PASSWORD_LENGTH = Some false /\
   handle_password_request
     {| req_type := "a";
        req_length := list_ascii_of_string " 99" ++ replicate 1021 NUL |}
     response_buffer example_rand = None).
Proof.
  split.
  - destruct (server_takes_lengths_the_client_refuses
                {| req_type := "a";
                   req_length := list_ascii_of_string "12 " ++ replicate 1021 NUL |}
                response_buffer example_rand
                [] (list_ascii_of_string "12") (replicate 1021 NUL) " ")
      as [Hclient [Hserver _]];
      [reflexivity | reflexivity | reflexivity | reflexivity | reflexivity
       | right; discriminate |].
    split; [exact Hclient|]. apply Hserver. vm_compute. discriminate.
  - destruct (server_takes_lengths_the_client_refuses
                {| req_type := "a";
                   req_length := list_ascii_of_string " 99" ++ replicate 1021 NUL |}
                response_buffer example_rand
                (list_ascii_of_string " ") (list_ascii_of_string "99")
                (replicate 1020 NUL) NUL)
      as [Hclient [_ Hserver]];
      [reflexivity | reflexivity | reflexivity | reflexivity | reflexivity
       | left; discriminate |].
    split; [exact Hclient|]. apply Hserver. reflexivity.
Defined.

(** ** The loop of the server *)

Lemma main_turn_sent (t : turn) (sent : list (list ascii)) (s : rand_state)
  (p : process) :
  main_turn t sent s = Some p ->
  match p with
  | Running sent' _ => exists d, sent' = sent ++ [d]
  | Exited status sent' _ => status = ServerProgram.EXIT_FAILURE /\ sent' = sent
  end.
Proof.
  unfold main_turn. destruct (receive_request _ _) as [received request].
  destruct received; simpl; [|intros [= <-]; now split].
  destruct (handle_password_request _ _ s) as [[response s1]|]; [|discriminate].
  destruct (negb _); intros [= <-]; [now split | eexists; reflexivity].
Qed.

Lemma main_loop_sent (turns : list turn) (sent : list (list ascii))
  (s : rand_state) (p : process) :
  main_loop turns sent s = Some p ->
  match p with
  | Running sent' _ =>
      List.length sent' = (List.length sent + List.length turns)%nat
  | Exited status sent' _ =>
      status = ServerProgram.EXIT_FAILURE /\
      (List.length sent' < List.length sent + List.length turns)%nat
  end.
Proof.
  revert sent s. induction turns as [|t turns IH]; intros sent s; simpl.
  - intros [= <-]. lia.
  - destruct (main_turn t sent s) as [[sent1 s1|status sent1 s1]|] eqn:E;
      [| |discriminate]; apply main_turn_sent in E.
    + destruct E as [d ->]. intros H. apply IH in H.
      rewrite length_app in H. simpl in H.
      destruct p as [sent' s'|status sent' s']; [lia|].
      destruct H as [Hst H]. split; [exact Hst | lia].
    + destruct E as [-> ->]. intros [= <-]. split; [reflexivity | lia].
Qed.

(** X6. Outside Windows (the [WIN32] blocks, with their [return 0]
    after a failed [WSAStartup], are not compiled), in every defined run
    the server never leaves [main] with success, and it answers each
    request once: while it runs, the socket and the bind have succeeded
    and it has sent as many datagrams as it has had turns; when it has
    left [main] the status is EXIT_FAILURE, and either the socket or the
    bind failed and nothing was sent, or it left at a turn, which got no
    answer. *)
Theorem server_answers_each_turn (created_socket bind_result : Z)
  (start : rand_state) (turns : list turn) (p : process) :
  ServerProgram.main created_socket bind_result start turns = Some p ->
  match p with
  | Running sent _ =>
      0 <= created_socket /\ 0 <= bind_result /\
      List.length sent = List.length turns
  | Exited status sent _ =>
      status = ServerProgram.EXIT_FAILURE /\
      (((created_socket < 0 \/ bind_result < 0) /\ sent = []) \/
       (0 <= created_socket /\ 0 <= bind_result /\
        (List.length sent < List.length turns)%nat))
  end.
Proof.
  unfold ServerProgram.main.
  destruct (Z.ltb_spec created_socket 0) as [Hs|Hs].
  { intros [= <-]. split; [reflexivity|]. left. split; [now left | reflexivity]. }
  destruct (Z.ltb_spec bind_result 0) as [Hb|Hb].
  { intros [= <-]. split; [reflexivity|]. left. split; [now right | reflexivity]. }
  intros H. pose proof (main_loop_sent turns [] start p H) as Hp.
  destruct p as [sent s|status sent s]; simpl in Hp.
  - repeat split; assumption.
  - destruct Hp as [Hst Hlen]. split; [exact Hst|]. right. repeat split; assumption.
Qed.

Lemma server_answers_each_turn_witness :
  (exists sent s,
      ServerProgram.main 3 0 example_rand [turn_n_8; turn_n_8]
      = Some (Running sent s) /\
      0 <= 3 /\ 0 <= 0 /\ List.length sent = 2%nat) /\
  ServerProgram.main 3 (-1) example_rand [turn_n_8]
  = Some (Exited ServerProgram.EXIT_FAILURE [] example_rand).
Proof.
  split; [|reflexivity].
  destruct (ServerProgram.main 3 0 example_rand [turn_n_8; turn_n_8])
    as [[sent s|status sent s]|] eqn:E;
    [| vm_compute in E; discriminate E | vm_compute in E; discriminate E].
  exists sent, s. split; [reflexivity|].
  exact (server_answers_each_turn 3 0 example_rand [turn_n_8; turn_n_8] _ E).
Defined.

Lemma main_turn_shaped (t : turn) (sent : list (list ascii)) (s : rand_state)
  (p : process) :
  response_wf (turn_response t) ->
  Forall response_shaped sent ->
  main_turn t sent s = Some p ->
  Forall response_shaped (process_sent p).
Proof.
  intros Hwf Hsent. unfold main_turn.
  destruct (receive_request _ _) as [received request].
  destruct received; simpl; [|intros [= <-]; exact Hsent].
  destruct (handle_password_request request (turn_response t) s)
    as [[response s1]|] eqn:E; [|discriminate].
  destruct (negb _); intros [= <-]; simpl; [exact Hsent|].
  apply Forall_app. split; [exact Hsent|]. constructor; [|constructor].
  destruct (handle_password_request_some _ _ _ _ _ E) as [n [Hn Hrange]].
  unfold response_wf, MAX_PASSWORD_LENGTH in Hwf.
  destruct (handle_password_request_good request (turn_response t) s n Hn Hrange)
    as [pw [s' [Hrun [Hstr [Hlen _]]]]].
  rewrite Hrun in E. injection E as <- _.
  unfold response_shaped, response_datagram, sendto_payload, response_bytes. simpl.
  unfold sizeof in *.
  assert (Hsize : List.length
                    (pw ++ NUL :: drop (S (Z.to_nat n)) (resp_password (turn_response t)))
                  = sizeof_PasswordResponse).
  { rewrite length_app. simpl. rewrite length_drop.
    unfold sizeof_PasswordResponse, MAX_PASSWORD_LENGTH. lia. }
  rewrite take_ge by (rewrite Hsize; apply Nat.le_refl).
  split; [exact Hsize|]. exists pw. split; [exact Hstr | lia].
Qed.

Lemma main_loop_shaped (turns : list turn) (sent : list (list ascii))
  (s : rand_state) (p : process) :
  Forall (fun t => response_wf (turn_response t)) turns ->
  Forall response_shaped sent ->
  main_loop turns sent s = Some p ->
  Forall response_shaped (process_sent p).
Proof.
  intros Hwf. revert sent s. induction Hwf as [|t turns Ht _ IH]; intros sent s Hsent; simpl.
  - intros [= <-]. exact Hsent.
  - destruct (main_turn t sent s) as [[sent1 s1|status sent1 s1]|] eqn:E;
      [| |discriminate]; apply (main_turn_shaped _ _ _ _ Ht Hsent) in E; simpl in E.
    + apply IH. exact E.
    + intros [= <-]. exact E.
Qed.

(** X7. Every datagram the server sends has the 33 bytes of the response
    record and starts with a terminated string of at most 32 characters,
    whatever requests arrive, as long as the run is defined. *)
Theorem server_sends_terminated_responses (created_socket bind_result : Z)
  (start : rand_state) (turns : list turn) (p : process) :
  Forall (fun t => response_wf (turn_response t)) turns ->
  ServerProgram.main created_socket bind_result start turns = Some p ->
  Forall response_shaped (process_sent p).
Proof.
  intros Hwf. unfold ServerProgram.main.
  destruct (created_socket <? 0); [intros [= <-]; constructor|].
  destruct (bind_result <? 0); [intros [= <-]; constructor|].
  intros H. apply (main_loop_shaped turns [] start p Hwf); [constructor | exact H].
Qed.

Lemma server_sends_terminated_responses_witness :
  exists p,
    ServerProgram.main 3 0 example_rand [turn_n_8; turn_n_8] = Some p /\
    Forall response_shaped (process_sent p).
Proof.
  destruct (ServerProgram.main 3 0 example_rand [turn_n_8; turn_n_8]) as [p|] eqn:E;
    [|vm_compute in E; discriminate E].
  exists p. split; [reflexivity|].
  apply (server_sends_terminated_responses 3 0 example_rand [turn_n_8; turn_n_8] p);
    [|exact E].
  repeat constructor.
Defined.

(* ===================================================================== *)
(** * More on the datagrams                                               *)
(* ===================================================================== *)

Lemma recvfrom_length (buf : list ascii) (len : nat) (net : recv_outcome) :
  List.length buf = len ->
  List.length (snd (recvfrom buf len net)) = len.
Proof.
  intros Hlen. destruct net as [|payload]; simpl; [exact Hlen|].
  rewrite length_app, length_drop, length_take. lia.
Qed.

(** X8. Whatever arrives, the records keep the sizes their declarations
    give them: a datagram that is too long is cut, one that is too short
    leaves the end of the record in place. *)
Theorem receive_keeps_record_size :
  (forall (request_msg : PasswordRequest) (net : recv_outcome),
      request_wf request_msg ->
      request_wf (snd (receive_request request_msg net))) /\
  (forall (response_msg : PasswordResponse) (net : recv_outcome),
      response_wf response_msg ->
      response_wf (snd (receive_response response_msg net))).
Proof.
  split.
  - intros request_msg net Hwf. unfold request_wf in *. unfold receive_request.
    pose proof (recvfrom_length (request_bytes request_msg) sizeof_PasswordRequest net)
      as Hlen.
    destruct (recvfrom _ _ _) as [size mem]. simpl in Hlen.
    assert (Hmem : List.length mem = sizeof_PasswordRequest)
      by (apply Hlen; unfold request_bytes, sizeof_PasswordRequest; simpl; now rewrite Hwf).
    assert (Hof : List.length (req_length (request_of_bytes mem)) = BUFFER_SIZE).
    { destruct mem as [|t l]; [discriminate Hmem|].
      unfold sizeof_PasswordRequest in Hmem. simpl in *. now injection Hmem. }
    destruct (size <? 0); exact Hof.
  - intros response_msg net Hwf. unfold response_wf, sizeof in *.
    unfold receive_response.
    pose proof (recvfrom_length (response_bytes response_msg) sizeof_PasswordResponse net)
      as Hlen.
    destruct (recvfrom _ _ _) as [size mem]. simpl in Hlen.
    assert (Hmem : List.length mem = sizeof_PasswordResponse).
    { apply Hlen. unfold response_bytes, sizeof_PasswordResponse.
      rewrite <- Hwf. now rewrite Nat2Z.id. }
    assert (Hof : Z.of_nat (List.length (resp_password (response_of_bytes mem)))
                  = MAX_PASSWORD_LENGTH + 1).
    { unfold response_of_bytes, resp_password. rewrite Hmem.
      unfold sizeof_PasswordResponse. apply Z2Nat.id.
      unfold MAX_PASSWORD_LENGTH. lia. }
    destruct (size <? 0); exact Hof.
Qed.

Lemma receive_keeps_record_size_witness :
  request_wf (snd (receive_request request_x_8
                     (RecvDatagram (replicate 2000 "!"%char)))) /\
  response_wf (snd (receive_response response_buffer
                      (RecvDatagram (list_ascii_of_string "ab")))).
Proof.
  split.
  - apply (proj1 receive_keeps_record_size). reflexivity.
  - apply (proj2 receive_keeps_record_size). reflexivity.
Defined.

(** A response of the declared size, sent whole and received whole. *)
Lemma receive_response_whole (r old : PasswordResponse) :
  response_wf r ->
  response_wf old ->
  response_datagram r = resp_password r /\
  receive_response old (RecvDatagram (resp_password r)) = (true, r).
Proof.
  unfold response_wf, sizeof. intros Hr Hold.
  assert (Hsize : List.length (resp_password r) = sizeof_PasswordResponse)
    by (unfold sizeof_PasswordResponse; rewrite <- Hr; now rewrite Nat2Z.id).
  assert (Hsize' : List.length (resp_password old) = sizeof_PasswordResponse)
    by (unfold sizeof_PasswordResponse; rewrite <- Hold; now rewrite Nat2Z.id).
  assert (Htake : take sizeof_PasswordResponse (resp_password r) = resp_password r)
    by (apply take_ge; rewrite Hsize; apply Nat.le_refl).
  split; [exact Htake|].
  unfold receive_response, recvfrom, response_bytes.
  rewrite Htake, received_size_nonneg.
  rewrite drop_ge by (rewrite Hsize, Hsize'; apply Nat.le_refl).
  rewrite app_nil_r. now destruct r.
Qed.

(** X9. A response sent by the server and received whole by the client
    comes out as the same record. *)
Theorem response_round_trip (r old : PasswordResponse) :
  response_wf r ->
  response_wf old ->
  receive_response old (RecvDatagram (response_datagram r)) = (true, r).
Proof.
  intros Hr Hold. destruct (receive_response_whole r old Hr Hold) as [-> H].
  exact H.
Qed.

Lemma response_round_trip_witness :
  receive_response response_buffer
    (RecvDatagram
       (response_datagram
          {| resp_password := literal "k3#Pq9" ++ replicate 26 "?"%char |}))
  = (true, {| resp_password := literal "k3#Pq9" ++ replicate 26 "?"%char |}).
Proof.
  apply (response_round_trip
           {| resp_password := literal "k3#Pq9" ++ replicate 26 "?"%char |}
           response_buffer); reflexivity.
Defined.

(* ===================================================================== *)
(** * More on the validators                                              *)
(* ===================================================================== *)

(** X10. A zero in front changes nothing for [control_length]: the
    verdict on ["0" ++ length] is the verdict on [length], for every
    array, terminated or not, and all bounds. *)
Theorem control_length_leading_zero (length : list ascii) (min_length max_length : Z) :
  control_length ("0"%char :: length) min_length max_length
  = control_length length min_length max_length.
Proof.
  unfold control_length. cbn [control_length_loop].
  change (Ascii.eqb "0" NUL) with false. change (isdigit (int_of_char "0")) with true.
  cbn [negb]. destruct (control_length_loop length) as [[|]|] eqn:Hloop; try reflexivity.
  assert (Hspace : atoi_space ("0"%char :: length) = atoi_space length).
  { change (atoi_space ("0"%char :: length)) with (atoi_digits 0 length).
    destruct length as [|c rest]; [discriminate Hloop|].
    symmetry. apply atoi_starts_at_digits. simpl in Hloop.
    destruct (Ascii.eqb_spec c NUL) as [->|_]; [now right|]. left.
    rewrite <- isdigit_mem. now destruct (isdigit (int_of_char c)). }
  unfold atoi. now rewrite Hspace.
Qed.

(** X11. Not to go on is an equivalence between characters:
    [keep_generating] is false of a character and itself, does not depend
    on the order of its arguments, and is false of [a] and [c] when it is
    false of [a] and [b] and of [b] and [c]. *)
Theorem keep_generating_equivalence :
  (forall a : ascii, keep_generating a a = false) /\
  (forall a b : ascii, keep_generating a b = keep_generating b a) /\
  (forall a b c : ascii,
      keep_generating a b = false -> keep_generating b c = false ->
      keep_generating a c = false).
Proof.
  unfold keep_generating. split; [|split].
  - intros a. now rewrite Z.eqb_refl.
  - intros a b. now rewrite Z.eqb_sym.
  - intros a b c Hab Hbc. apply negb_false_iff in Hab, Hbc.
    apply Z.eqb_eq in Hab, Hbc. apply negb_false_iff, Z.eqb_eq. congruence.
Qed.

(* ===================================================================== *)
(** * The dialogue with the user                                          *)
(* ===================================================================== *)

Import ClientSession.

Lemma blank_not_NUL (c : ascii) : blank c = true -> c <> NUL.
Proof. intros H ->. discriminate H. Qed.

Lemma word_char_parts (c : ascii) :
  word_char c = true -> c <> NUL /\ blank c = false.
Proof.
  unfold word_char. rewrite negb_true_iff, orb_false_iff.
  intros [Hn Hb]. split; [|exact Hb]. intros ->. discriminate Hn.
Qed.

Lemma scan_space_blanks (ws p : list ascii) :
  forallb blank ws = true -> scan_space (ws ++ p) = scan_space p.
Proof.
  induction ws as [|w ws IH]; simpl; [reflexivity|].
  intros H. apply andb_true_iff in H as [Hw Hws]. unfold blank in Hw.
  rewrite Hw. exact (IH Hws).
Qed.

Lemma scan_space_stop (c : ascii) (p : list ascii) :
  blank c = false -> scan_space (c :: p) = Some (c :: p).
Proof. unfold blank. intros H. simpl. now rewrite H. Qed.

Lemma scan_word_word (w p : list ascii) :
  forallb word_char w = true -> ends_word p -> scan_word (w ++ p) = Some (w, p).
Proof.
  intros Hw Hp. induction w as [|x w IH]; cbn [app scan_word].
  - destruct p as [|d p]; [contradiction|]. simpl in Hp. unfold word_char in Hp.
    cbn [scan_word].
    apply negb_false_iff in Hp. unfold blank in Hp. now rewrite Hp.
  - simpl in Hw. apply andb_true_iff in Hw as [Hx Hw]. unfold word_char in Hx.
    apply negb_true_iff in Hx. unfold blank in Hx. rewrite Hx. now rewrite (IH Hw).
Qed.

Lemma ends_word_blanks (ws junk : list ascii) :
  forallb blank ws = true -> ends_word (ws ++ NUL :: junk).
Proof.
  destruct ws as [|b ws]; simpl; [reflexivity|].
  intros H. apply andb_true_iff in H as [Hb _]. unfold word_char.
  rewrite Hb. now rewrite orb_true_r.
Qed.

Lemma scan_space_to_end (ws junk : list ascii) :
  forallb blank ws = true -> scan_space (ws ++ NUL :: junk) = Some (NUL :: junk).
Proof. intros H. rewrite (scan_space_blanks _ _ H). reflexivity. Qed.

(** [sscanf] on a line of one or two words: blanks, a character, blanks,
    a word that may be empty, blanks. *)
Lemma sscanf_command (request : PasswordRequest) (ws1 ws2 w ws3 junk : list ascii)
  (c : ascii) :
  forallb blank ws1 = true -> word_char c = true ->
  forallb blank ws2 = true -> forallb word_char w = true ->
  forallb blank ws3 = true ->
  (List.length w < List.length (req_length request))%nat ->
  sscanf_type_length (ws1 ++ c :: ws2 ++ w ++ ws3 ++ NUL :: junk) request
  = Some (match w with
          | [] => (1, {| req_type := c; req_length := req_length request |})
          | _ :: _ =>
              (2, {| req_type := c;
                     req_length :=
                       w ++ NUL :: drop (S (List.length w)) (req_length request) |})
          end).
Proof.
  intros H1 Hc H2 Hw H3 Hroom. unfold sscanf_type_length.
  destruct (word_char_parts c Hc) as [Hcn Hcb].
  rewrite (scan_space_blanks _ _ H1), (scan_space_stop _ _ Hcb).
  destruct (Ascii.eqb_spec c NUL); [contradiction|].
  rewrite (scan_space_blanks _ _ H2).
  destruct w as [|x w].
  - simpl app. rewrite (scan_space_to_end _ _ H3). reflexivity.
  - simpl in Hw. apply andb_true_iff in Hw as [Hx Hw].
    destruct (word_char_parts x Hx) as [_ Hxb].
    change ((x :: w) ++ ws3 ++ NUL :: junk) with (x :: (w ++ ws3 ++ NUL :: junk)).
    rewrite (scan_space_stop _ _ Hxb).
    change (x :: (w ++ ws3 ++ NUL :: junk)) with ((x :: w) ++ ws3 ++ NUL :: junk).
    rewrite (scan_word_word (x :: w) _);
      [| simpl; now rewrite Hx, Hw | now apply ends_word_blanks].
    unfold write_string. apply Nat.ltb_lt in Hroom. rewrite Hroom.
    rewrite (scan_space_to_end _ _ H3). reflexivity.
Qed.

(** [sscanf] on a line of blanks. *)
Lemma sscanf_blank (request : PasswordRequest) (ws junk : list ascii) :
  forallb blank ws = true ->
  sscanf_type_length (ws ++ NUL :: junk) request = Some (EOF, request).
Proof.
  intros H. unfold sscanf_type_length. now rewrite (scan_space_to_end _ _ H).
Qed.

(** [a[n - 1] = '\0'] on an array of [n] bytes that holds a string. *)
Lemma store_last (line junk : list ascii) (k : nat) :
  List.length (line ++ NUL :: junk) = S k ->
  exists junk',
    store (line ++ NUL :: junk) (Z.of_nat (S k) - 1) NUL
    = Some (line ++ NUL :: junk') /\
    List.length junk' = List.length junk.
Proof.
  intros Hlen. replace (Z.of_nat (S k) - 1) with (Z.of_nat k) by lia.
  rewrite store_inside by lia.
  rewrite length_app in Hlen. simpl in Hlen.
  rewrite insert_app_r_alt by lia.
  destruct (k - List.length line)%nat as [|m] eqn:E.
  - exists junk. split; reflexivity.
  - exists (<[m := NUL]> junk). split; [reflexivity | apply length_insert].
Qed.

Lemma show_password_menu_written :
  show_password_menu = Some (written show_password_menu).
Proof. vm_compute. reflexivity. Qed.

Lemma show_help_menu_written :
  show_help_menu = Some (written show_help_menu).
Proof. vm_compute. reflexivity. Qed.

(** The output so far only comes before the output of the loop. *)
Lemma handle_user_input_loop_output (stdin : list (list ascii))
  (request : PasswordRequest) (out : list ascii) :
  handle_user_input_loop stdin request out
  = (fun r => let '(a, r', st, o) := r in (a, r', st, out ++ o))
      <$> handle_user_input_loop stdin request [].
Proof.
  revert request out. induction stdin as [|input stdin IH]; intros request out;
    [reflexivity|].
  cbn [handle_user_input_loop]. rewrite show_password_menu_written.
  destruct (store input _ NUL) as [input1|]; [|reflexivity].
  destruct (sscanf_type_length input1 request) as [[arguments request1]|];
    [|reflexivity].
  destruct (store (req_length request1) _ NUL) as [length1|]; [|reflexivity].
  cbn [req_type]. destruct (_ =? _).
  - rewrite show_help_menu_written.
    rewrite (IH _ (out ++ _)), (IH _ ([] ++ _)).
    destruct (handle_user_input_loop stdin _ []) as [[[[a r'] st] o]|]; [|reflexivity].
    simpl. now rewrite <- !app_assoc.
  - reflexivity.
Qed.

Lemma word_not_NUL (w : list ascii) : forallb word_char w = true -> ~ In NUL w.
Proof.
  intros H Hin. rewrite forallb_forall in H. specialize (H NUL).
  assert (Hx : word_char NUL = true) by (apply H; exact Hin). discriminate Hx.
Qed.

Lemma control_type_string (allowed rest : list ascii) (c : ascii) :
  ~ In NUL allowed -> c <> NUL ->
  control_type (allowed ++ NUL :: rest) c = Some (mem c allowed).
Proof.
  intros Hnul Hc. unfold control_type, strchr.
  destruct (strchr_from_string allowed rest c 0 Hnul Hc) as [r [-> Hiff]].
  destruct r as [i|]; f_equal.
  - symmetry. apply Hiff. eexists; reflexivity.
  - destruct (mem c allowed); [|reflexivity].
    destruct (proj2 Hiff eq_refl) as [? ?]. discriminate.
Qed.

Lemma control_type_command (c : ascii) :
  c <> NUL -> control_type (literal "namsuq") c = Some (mem c command_codes).
Proof.
  intros Hc. apply (control_type_string command_codes [] c); [|exact Hc].
  apply not_In_NUL. reflexivity.
Qed.

(** The check of the length between 6 and 32, on a terminated string. *)
Lemma control_length_valid (raw rest : list ascii) :
  ~ In NUL raw ->
  (is_number raw = true -> decimal_value raw <= INT_MAX) ->
  control_length (raw ++ NUL :: rest) MIN_PASSWORD_LENGTH MAX_PASSWORD_LENGTH
  = Some (valid_length raw).
Proof.
  intros Hnul Hfit. unfold control_length, valid_length.
  rewrite (control_length_loop_string raw rest Hnul). unfold is_number in *.
  destruct (forallb (fun c => mem c digits) raw) eqn:Hd.
  2:{ now rewrite andb_false_r. }
  pose proof (decimal_value_nonneg raw Hd) as Hpos.
  destruct raw as [|x raw]; [reflexivity|].
  change (negb (Nat.eqb (List.length (x :: raw)) 0)) with true in *.
  rewrite (atoi_string (x :: raw) rest Hd (Hfit eq_refl)).
  unfold MIN_PASSWORD_LENGTH, MAX_PASSWORD_LENGTH. cbn [andb].
  now rewrite Z.geb_leb.
Qed.

(** A number that does not fit an [int] passes the loop and overflows in
    [atoi]. *)
Lemma control_length_too_large (raw rest : list ascii) :
  is_number raw = true ->
  INT_MAX < decimal_value raw ->
  control_length (raw ++ NUL :: rest) MIN_PASSWORD_LENGTH MAX_PASSWORD_LENGTH = None.
Proof.
  unfold is_number. intros Hnum Hover. apply andb_true_iff in Hnum as [_ Hd].
  assert (Hnul : ~ In NUL raw).
  { intros Hin. rewrite forallb_forall in Hd. specialize (Hd NUL Hin).
    discriminate Hd. }
  unfold control_length.
  rewrite (control_length_loop_string raw rest Hnul), Hd.
  unfold atoi. rewrite (atoi_space_string raw rest Hd).
  replace (decimal_value raw <=? INT_MAX) with false
    by (symmetry; apply Z.leb_gt; exact Hover).
  now rewrite andb_false_r.
Qed.

(** What the loop of [control_length] has seen when it ends at the
    terminator. *)
Lemma control_length_loop_true (length : list ascii) :
  control_length_loop length = Some true ->
  exists raw rest,
    length = raw ++ NUL :: rest /\ ~ In NUL raw /\
    forallb (fun c => mem c digits) raw = true.
Proof.
  induction length as [|c length IH]; simpl; [discriminate|].
  destruct (Ascii.eqb_spec c NUL) as [->|Hc].
  - intros _. exists [], length. repeat split. intros [].
  - rewrite isdigit_mem. destruct (mem c digits) eqn:Hd; simpl; [|discriminate].
    intros H. destruct (IH H) as [raw [rest [-> [Hnul Hall]]]].
    exists (c :: raw), rest. split; [reflexivity|]. split.
    + intros [E|E]; [now apply Hc | now apply Hnul].
    + simpl. now rewrite Hd.
Qed.

Lemma control_length_true (length : list ascii) :
  control_length length MIN_PASSWORD_LENGTH MAX_PASSWORD_LENGTH = Some true ->
  exists raw rest, length = raw ++ NUL :: rest /\ valid_length raw = true.
Proof.
  unfold control_length.
  destruct (control_length_loop length) as [[|]|] eqn:Hloop; try discriminate.
  destruct (control_length_loop_true length Hloop) as [raw [rest [-> [Hnul Hd]]]].
  unfold atoi. rewrite (atoi_space_string raw rest Hd).
  destruct ((INT_MIN <=? decimal_value raw) && (decimal_value raw <=? INT_MAX));
    [|discriminate].
  intros [= H]. exists raw, rest. split; [reflexivity|].
  unfold MIN_PASSWORD_LENGTH, MAX_PASSWORD_LENGTH in H.
  apply andb_true_iff in H as [Hlo Hhi]. rewrite Z.geb_leb in Hlo.
  unfold valid_length, is_number. rewrite Hd, Hlo, Hhi.
  destruct raw; [discriminate Hlo | reflexivity].
Qed.

Lemma write_string_some (dst w l : list ascii) :
  write_string dst w = Some l ->
  l = w ++ NUL :: drop (S (List.length w)) dst /\
  List.length l = List.length dst.
Proof.
  unfold write_string. destruct (Nat.ltb_spec (List.length w) (List.length dst));
    [|discriminate].
  intros [= <-]. split; [reflexivity|].
  rewrite length_app. simpl. rewrite length_drop. lia.
Qed.

(** What [sscanf] returns, and what it leaves in the record. *)
Lemma sscanf_some (input : list ascii) (request request' : PasswordRequest)
  (arguments : Z) :
  sscanf_type_length input request = Some (arguments, request') ->
  List.length (req_length request') = List.length (req_length request) /\
  ((arguments = EOF /\ request' = request) \/
   ((arguments = 1 \/ arguments = 2) /\ req_type request' <> NUL)).
Proof.
  unfold sscanf_type_length.
  destruct (scan_space input) as [[|c p1]|]; try discriminate.
  destruct (Ascii.eqb_spec c NUL) as [->|Hc].
  { intros [= <- <-]. split; [reflexivity | left; now split]. }
  destruct (scan_space p1) as [p2|]; [|discriminate].
  destruct (scan_word p2) as [[w p3]|]; [|discriminate].
  destruct w as [|x w].
  { intros [= <- <-]. split; [reflexivity | right; split; [now left | exact Hc]]. }
  destruct (write_string _ _) as [l|] eqn:E; [|discriminate].
  destruct (scan_space p3) as [p4|]; [|discriminate].
  destruct (scan_word p4) as [[w' p5]|]; [|discriminate].
  destruct w'; [|discriminate].
  intros [= <- <-]. split; [exact (proj2 (write_string_some _ _ _ E))|].
  right. split; [now right | exact Hc].
Qed.

Lemma handle_user_input_loop_some (stdin : list (list ascii))
  (request : PasswordRequest) (out : list ascii) (arguments : Z)
  (request' : PasswordRequest) (stdin' : list (list ascii)) (out' : list ascii) :
  handle_user_input_loop stdin request out = Some (arguments, request', stdin', out') ->
  List.length (req_length request') = List.length (req_length request) /\
  (arguments = EOF \/
   ((arguments = 1 \/ arguments = 2) /\ req_type request' <> NUL)) /\
  (List.length stdin' < List.length stdin)%nat.
Proof.
  revert request out. induction stdin as [|input stdin IH]; intros request out;
    [discriminate|].
  cbn [handle_user_input_loop]. rewrite show_password_menu_written.
  destruct (store input _ NUL) as [input1|]; [|discriminate].
  destruct (sscanf_type_length input1 request) as [[a request1]|] eqn:Es;
    [|discriminate].
  destruct (store (req_length request1) _ NUL) as [length1|] eqn:El; [|discriminate].
  apply sscanf_some in Es as [Hlen Hargs]. apply store_some in El as [_ Hl].
  cbn [req_type]. destruct (_ =? _).
  - rewrite show_help_menu_written. intros H. apply IH in H as [H1 [H2 H3]].
    simpl in H1. split; [congruence|]. split; [exact H2 | simpl; lia].
  - intros [= <- <- <- <-]. simpl. split; [congruence|]. split; [|lia].
    destruct Hargs as [[-> _]|[Ha Hc]]; [now left | right; now split].
Qed.

Lemma strcpy_some (dst src l : list ascii) :
  strcpy dst src = Some l -> List.length l = List.length dst.
Proof.
  unfold strcpy. destruct (c_str src) as [w|]; [|discriminate].
  intros H. exact (proj2 (write_string_some _ _ _ H)).
Qed.

(** What [handle_user_input] has checked when it returns. *)
Lemma handle_user_input_some (request : PasswordRequest) (stdin : list (list ascii))
  (valid : bool) (request' : PasswordRequest) (stdin' : list (list ascii))
  (out : list ascii) :
  handle_user_input request stdin = Some (valid, request', stdin', out) ->
  List.length (req_length request') = List.length (req_length request) /\
  (List.length stdin' < List.length stdin)%nat /\
  (valid = true ->
   mem (req_type request') command_codes = true /\
   exists raw rest,
     req_length request' = raw ++ NUL :: rest /\ valid_length raw = true).
Proof.
  unfold handle_user_input.
  destruct (handle_user_input_loop stdin request []) as [[[[a r] st] o]|] eqn:E;
    [|discriminate].
  apply handle_user_input_loop_some in E as [Hlen [Hargs Hst]].
  destruct (negb (a =? 1) && negb (a =? 2)) eqn:Ea.
  { destruct (print_with_color _ _); [|discriminate].
    intros [= <- <- <- <-]. split; [exact Hlen|]. split; [exact Hst | discriminate]. }
  assert (Htype : req_type r <> NUL).
  { destruct Hargs as [->|[_ H]]; [discriminate Ea | exact H]. }
  destruct (if a =? 1 then _ else Some r) as [r1|] eqn:E1; [|discriminate].
  assert (Hr1 : req_type r1 = req_type r /\
                List.length (req_length r1) = List.length (req_length r)).
  { destruct (a =? 1).
    - destruct (strcpy _ _) as [l|] eqn:El; [|discriminate].
      injection E1 as <-. simpl. split; [reflexivity | exact (strcpy_some _ _ _ El)].
    - injection E1 as <-. now split. }
  destruct Hr1 as [Ht1 Hl1]. rewrite control_type_command by congruence.
  destruct (mem (req_type r1) command_codes) eqn:Hmem; cbn [negb].
  2:{ destruct (print_with_color _ _); [|discriminate].
      intros [= <- <- <- <-]. split; [congruence|]. split; [exact Hst | discriminate]. }
  destruct (control_length _ _ _) as [ok|] eqn:Ec; [|discriminate].
  destruct ok; cbn [negb].
  2:{ destruct (print_with_color _ _); [|discriminate].
      intros [= <- <- <- <-]. split; [congruence|]. split; [exact Hst | discriminate]. }
  intros [= <- <- <- <-]. split; [congruence|]. split; [exact Hst|].
  intros _. split; [exact Hmem | exact (control_length_true _ Ec)].
Qed.

(** X12. In every call that ISO C defines, a request that
    [handle_user_input] lets through has one of the six characters
    n, a, m, s, u, q as its type, in lowercase, and a length field that
    holds a terminated number from 6 to 32; the length array keeps its
    size, and at least one line of input has been read.  Two kinds of
    lines are outside, ISO C giving them no defined result: a line whose
    length is made of digits only and is larger than INT_MAX, such as
    ["n 4294967302"] ([atoi] overflows in [control_length]; a library
    whose [atoi] wraps reads 6 there and lets the request through with
    that length field), and a line of three words or more, such as
    ["n 12 x"] (the third conversion of [sscanf] writes into the array
    it reads from). *)
Theorem handle_user_input_accepts_valid_only :
  (forall (request : PasswordRequest) (stdin : list (list ascii))
          (request' : PasswordRequest) (stdin' : list (list ascii))
          (out : list ascii),
      handle_user_input request stdin = Some (true, request', stdin', out) ->
      mem (req_type request') command_codes = true /\
      (exists raw rest,
          req_length request' = raw ++ NUL :: rest /\ valid_length raw = true) /\
      List.length (req_length request') = List.length (req_length request) /\
      (List.length stdin' < List.length stdin)%nat) /\
  handle_user_input request_x_8 [typed_line "n 4294967302"] = None /\
  handle_user_input request_x_8 [typed_line "n 12 x"] = None.
Proof.
  split; [|split; vm_compute; reflexivity].
  intros request stdin request' stdin' out H.
  destruct (handle_user_input_some _ _ _ _ _ _ H) as [Hlen [Hst Hvalid]].
  destruct (Hvalid eq_refl) as [Htype Hraw]. repeat split; assumption.
Qed.

Lemma handle_user_input_accepts_valid_only_witness :
  exists request' out,
    handle_user_input request_x_8 [typed_line "u 12"]
    = Some (true, request', [], out) /\
    mem (req_type request') command_codes = true /\
    (exists raw rest,
        req_length request' = raw ++ NUL :: rest /\ valid_length raw = true) /\
    List.length (req_length request') = List.length (req_length request_x_8) /\
    (List.length (@nil (list ascii)) < List.length [typed_line "u 12"])%nat.
Proof.
  eexists _, _. split; [vm_compute; reflexivity|].
  destruct handle_user_input_accepts_valid_only as [Haccepts _].
  eapply (Haccepts request_x_8 [typed_line "u 12"]).
  vm_compute. reflexivity.
Defined.

Lemma store_end_string (line junk : list ascii) :
  List.length (line ++ NUL :: junk) = BUFFER_SIZE ->
  exists junk',
    store (line ++ NUL :: junk) (Z.of_nat BUFFER_SIZE - 1) NUL
    = Some (line ++ NUL :: junk') /\
    List.length (line ++ NUL :: junk') = BUFFER_SIZE.
Proof.
  intros Hlen. destruct (store_last line junk 1023 Hlen) as [junk' [Hs Hj]].
  exists junk'. split; [exact Hs|].
  rewrite length_app in *. simpl in *. now rewrite Hj.
Qed.

Lemma store_end (a : list ascii) :
  List.length a = BUFFER_SIZE ->
  exists a', store a (Z.of_nat BUFFER_SIZE - 1) NUL = Some a' /\
             List.length a' = BUFFER_SIZE.
Proof.
  intros Hlen. change (Z.of_nat BUFFER_SIZE - 1) with (Z.of_nat 1023).
  rewrite store_inside by (rewrite Hlen; unfold BUFFER_SIZE; lia).
  eexists. split; [reflexivity|]. now rewrite length_insert.
Qed.

Lemma line_assoc (ws1 ws2 w ws3 p : list ascii) (c : ascii) :
  (ws1 ++ c :: ws2 ++ w ++ ws3) ++ p = ws1 ++ c :: ws2 ++ w ++ ws3 ++ p.
Proof. now rewrite <- !app_assoc, <- app_comm_cons, <- !app_assoc. Qed.

(** One turn of the loop on a line of one or two words. *)
Lemma handle_user_input_loop_command (request : PasswordRequest)
  (stdin : list (list ascii)) (ws1 ws2 w ws3 junk : list ascii) (c : ascii) :
  request_wf request ->
  List.length (ws1 ++ c :: ws2 ++ w ++ ws3 ++ NUL :: junk) = BUFFER_SIZE ->
  forallb blank ws1 = true -> word_char c = true ->
  forallb blank ws2 = true -> forallb word_char w = true ->
  forallb blank ws3 = true ->
  exists request2,
    req_type request2 = c /\ request_wf request2 /\
    match w with
    | [] => True
    | _ :: _ => exists tail, req_length request2 = w ++ NUL :: tail
    end /\
    forall out,
      handle_user_input_loop
        ((ws1 ++ c :: ws2 ++ w ++ ws3 ++ NUL :: junk) :: stdin) request out
      = if tolower (int_of_char c) =? int_of_char "h"
        then handle_user_input_loop stdin request2
               (out ++ written show_password_menu ++ written show_help_menu)
        else Some (match w with [] => 1 | _ :: _ => 2 end, request2, stdin,
                   out ++ written show_password_menu).
Proof.
  unfold request_wf. intros Hwf Hlen H1 Hc H2 Hw H3.
  assert (Hroom : (List.length w < List.length (req_length request))%nat).
  { rewrite Hwf, <- Hlen, !length_app. cbn [List.length].
    rewrite !length_app. cbn [List.length]. lia. }
  rewrite <- line_assoc in Hlen.
  destruct (store_end_string _ _ Hlen) as [junk' [Hstore _]].
  rewrite !line_assoc in Hstore.
  pose proof (sscanf_command request ws1 ws2 w ws3 junk' c H1 Hc H2 Hw H3 Hroom)
    as Hscan.
  destruct w as [|x w].
  - destruct (store_end (req_length request) Hwf) as [l [Hl Hlsize]].
    exists {| req_type := c; req_length := l |}.
    split; [reflexivity|]. split; [exact Hlsize|]. split; [exact I|].
    intros out. cbn [handle_user_input_loop].
    rewrite show_password_menu_written at 1. rewrite Hstore, Hscan.
    cbn [req_length req_type]. rewrite Hl. cbn [req_type].
    destruct (_ =? _); [now rewrite show_help_menu_written at 1 | reflexivity].
  - set (l1 := (x :: w) ++ NUL :: drop (S (List.length (x :: w))) (req_length request))
      in *.
    assert (Hl1 : List.length l1 = BUFFER_SIZE).
    { unfold l1. rewrite length_app. cbn [List.length]. rewrite length_drop.
      cbn [List.length] in Hroom. lia. }
    destruct (store_end_string _ _ Hl1) as [tail [Hl Hlsize]].
    exists {| req_type := c; req_length := (x :: w) ++ NUL :: tail |}.
    split; [reflexivity|]. split; [exact Hlsize|].
    split; [exists tail; reflexivity|].
    intros out. cbn [handle_user_input_loop].
    rewrite show_password_menu_written at 1. rewrite Hstore, Hscan.
    cbn [req_length req_type]. fold l1. fold l1 in Hl. rewrite Hl. cbn [req_type].
    destruct (_ =? _); [now rewrite show_help_menu_written at 1 | reflexivity].
Qed.

Lemma tolower_is_h (c : ascii) :
  (tolower (int_of_char c) =? int_of_char "h") = Ascii.eqb (lowercase_fold c) "h".
Proof. each_ascii c; reflexivity. Qed.

(** Output written before the loop is entered stays in front of all that
    [handle_user_input] writes, and changes nothing else. *)
Lemma handle_user_input_prefix (request request2 : PasswordRequest)
  (stdin1 stdin2 : list (list ascii)) (pre : list ascii) :
  handle_user_input_loop stdin1 request []
  = handle_user_input_loop stdin2 request2 pre ->
  handle_user_input request stdin1
  = after_output pre <$> handle_user_input request2 stdin2.
Proof.
  intros H. unfold handle_user_input. rewrite H, handle_user_input_loop_output.
  destruct (handle_user_input_loop stdin2 request2 []) as [[[[a r] st] o]|];
    [|reflexivity].
  cbn [fmap option_fmap option_map].
  destruct (negb (a =? 1) && negb (a =? 2)).
  { destruct (print_with_color _ _); [|reflexivity]. simpl. now rewrite app_assoc. }
  destruct (if a =? 1 then _ else Some r) as [r1|]; [|reflexivity].
  destruct (control_type _ _) as [ok|]; [|reflexivity].
  destruct ok; cbn [negb].
  2:{ destruct (print_with_color _ _); [|reflexivity]. simpl. now rewrite app_assoc. }
  destruct (control_length _ _ _) as [ok|]; [|reflexivity].
  destruct ok; cbn [negb]; [reflexivity|].
  destruct (print_with_color _ _); [|reflexivity]. simpl. now rewrite app_assoc.
Qed.

(** X13. A line of one or two words that does not ask for help is
    judged on the spot.  White space may come before the type, between
    the type and the length (or not at all: ["n12"] is ["n 12"]) and after
    them.  One case has no defined result: a type among n, a, m, s, u, q
    followed by a length of digits only that is larger than INT_MAX,
    which [atoi] is called on in [control_length] (undefined in ISO C).
    In every other case the request is let through exactly when the type
    is one of n, a, m, s, u, q in lowercase and the length, ["8"] when the
    line has none, is a number from 6 to 32; the type is checked first,
    and each refusal writes its own message after the menu.  The record
    then holds the type and the length as a terminated string. *)
Theorem handle_user_input_command (request : PasswordRequest)
  (stdin : list (list ascii)) (ws1 ws2 w ws3 junk : list ascii) (c : ascii) :
  request_wf request ->
  List.length (ws1 ++ c :: ws2 ++ w ++ ws3 ++ NUL :: junk) = BUFFER_SIZE ->
  forallb blank ws1 = true -> word_char c = true ->
  forallb blank ws2 = true -> forallb word_char w = true ->
  forallb blank ws3 = true ->
  lowercase_fold c <> "h"%char ->
  if mem c command_codes && (is_number w && (INT_MAX <? decimal_value w))
  then
    handle_user_input request
      ((ws1 ++ c :: ws2 ++ w ++ ws3 ++ NUL :: junk) :: stdin) = None
  else
  exists request',
    handle_user_input request
      ((ws1 ++ c :: ws2 ++ w ++ ws3 ++ NUL :: junk) :: stdin)
    = Some (mem c command_codes && valid_length (requested_length w),
            request', stdin,
            written show_password_menu
              ++ (if negb (mem c command_codes)
                  then written (print_with_color (Some bad_type_text) RED)
                  else if negb (valid_length (requested_length w))
                  then written (print_with_color (Some bad_length_text) RED)
                  else [])) /\
    req_type request' = c /\
    c_str (req_length request') = Some (requested_length w) /\
    request_wf request'.
Proof.
  intros Hwf Hlen H1 Hc H2 Hw H3 Hh.
  destruct (handle_user_input_loop_command request stdin ws1 ws2 w ws3 junk c
              Hwf Hlen H1 Hc H2 Hw H3) as [request2 [Ht [Hwf2 [Htail Hloop]]]].
  unfold handle_user_input. rewrite (Hloop []), tolower_is_h.
  destruct (Ascii.eqb_spec (lowercase_fold c) "h"); [contradiction|].
  destruct (word_char_parts c Hc) as [Hcn _].
  destruct w as [|x w].
  - change (is_number []) with false. rewrite andb_false_r.
    change (negb (1 =? 1) && negb (1 =? 2)) with false. cbn [app]. cbv iota.
    change (1 =? 1) with true. cbv iota.
    unfold strcpy. change (c_str (literal "8")) with (Some (list_ascii_of_string "8")).
    unfold write_string. unfold request_wf in Hwf2.
    replace (List.length (list_ascii_of_string "8") <? List.length (req_length request2))%nat
      with true by (symmetry; apply Nat.ltb_lt; rewrite Hwf2; unfold BUFFER_SIZE; simpl; lia).
    cbn [req_type req_length]. rewrite Ht, (control_type_command c Hcn).
    set (tail := drop (S (List.length (list_ascii_of_string "8"))) (req_length request2)).
    assert (Hcheck : control_length (list_ascii_of_string "8" ++ NUL :: tail)
                       MIN_PASSWORD_LENGTH MAX_PASSWORD_LENGTH = Some true).
    { apply (control_length_valid (list_ascii_of_string "8") tail).
      - apply not_In_NUL. reflexivity.
      - intros _. vm_compute. discriminate. }
    assert (Hsize : request_wf
                      {| req_type := c;
                         req_length := list_ascii_of_string "8" ++ NUL :: tail |}).
    { unfold request_wf. cbn [req_length]. unfold tail.
      rewrite length_app. cbn [List.length]. rewrite length_drop, Hwf2.
      unfold BUFFER_SIZE. simpl. lia. }
    change (valid_length (requested_length [])) with true.
    rewrite andb_true_r. cbn [negb].
    destruct (mem c command_codes); cbn [negb].
    + rewrite Hcheck. cbn [negb]. eexists. split; [reflexivity|].
      split; [reflexivity|]. split; [|exact Hsize]. reflexivity.
    + change (print_with_color (Some bad_type_text) RED)
        with (Some (written (print_with_color (Some bad_type_text) RED))).
      eexists. split; [reflexivity|].
      split; [reflexivity|]. split; [|exact Hsize]. reflexivity.
  - change (negb (2 =? 1) && negb (2 =? 2)) with false. cbv iota.
    change (2 =? 1) with false. cbv iota.
    destruct Htail as [tail Htail]. rewrite Ht, (control_type_command c Hcn), Htail.
    assert (Hstr : c_str (req_length request2) = Some (requested_length (x :: w))).
    { rewrite Htail. apply c_str_string. apply List.Forall_forall.
      intros y Hy ->. exact (word_not_NUL _ Hw Hy). }
    cbn [requested_length].
    destruct (mem c command_codes); cbn [negb andb].
    + destruct (is_number (x :: w) && (INT_MAX <? decimal_value (x :: w))) eqn:Hover.
      { apply andb_true_iff in Hover as [Hnum Hover]. apply Z.ltb_lt in Hover.
        now rewrite (control_length_too_large (x :: w) tail Hnum Hover). }
      assert (Hfit : is_number (x :: w) = true -> decimal_value (x :: w) <= INT_MAX).
      { intros Hnum. rewrite Hnum in Hover. cbn [andb] in Hover.
        now apply Z.ltb_ge in Hover. }
      rewrite (control_length_valid (x :: w) tail (word_not_NUL _ Hw) Hfit).
      destruct (valid_length (x :: w)); cbn [negb].
      * exists request2. rewrite app_nil_r. repeat split; assumption.
      * change (print_with_color (Some bad_length_text) RED)
          with (Some (written (print_with_color (Some bad_length_text) RED))).
        exists request2. repeat split; assumption.
    + change (print_with_color (Some bad_type_text) RED)
        with (Some (written (print_with_color (Some bad_type_text) RED))).
      exists request2. repeat split; assumption.
Qed.

Lemma handle_user_input_command_witness :
  (exists request',
      handle_user_input request_x_8 [typed_line "n12"]
      = Some (true, request', [], written show_password_menu) /\
      req_type request' = "n"%char /\
      c_str (req_length request') = Some (list_ascii_of_string "12") /\
      request_wf request') /\
  (exists request',
      handle_user_input request_x_8 [typed_line "  Q"]
      = Some (false, request', [],
              written show_password_menu
                ++ written (print_with_color (Some bad_type_text) RED)) /\
      req_type request' = "Q"%char /\
      c_str (req_length request') = Some (list_ascii_of_string "8") /\
      request_wf request') /\
  (exists request',
      handle_user_input request_x_8 [typed_line "q 3"]
      = Some (false, request', [],
              written show_password_menu
                ++ written (print_with_color (Some bad_length_text) RED)) /\
      req_type request' = "q"%char /\
      c_str (req_length request') = Some (list_ascii_of_string "3") /\
      request_wf request') /\
  handle_user_input request_x_8 [typed_line "n 4294967302"] = None.
Proof.
  split; [|split; [|split]].
  - apply (handle_user_input_command request_x_8 [] [] []
             (list_ascii_of_string "12") [LF] (replicate 1019 "#"%char) "n");
      try reflexivity; discriminate.
  - apply (handle_user_input_command request_x_8 []
             (list_ascii_of_string "  ") [LF] [] [] (replicate 1019 "#"%char) "Q");
      try reflexivity; discriminate.
  - apply (handle_user_input_command request_x_8 [] []
             (list_ascii_of_string " ") (list_ascii_of_string "3") [LF]
             (replicate 1019 "#"%char) "q");
      try reflexivity; discriminate.
  - apply (handle_user_input_command request_x_8 [] []
             (list_ascii_of_string " ") (list_ascii_of_string "4294967302") [LF]
             (replicate 1010 "#"%char) "n");
      try reflexivity; discriminate.
Defined.

(** X14. A line of one or two words whose first character is h or H
    asks for help: the menu and the help text are written and the
    function goes on with the next line, with the record changed but no
    verdict yet. *)
Theorem handle_user_input_help (request : PasswordRequest)
  (stdin : list (list ascii)) (ws1 ws2 w ws3 junk : list ascii) (c : ascii) :
  request_wf request ->
  List.length (ws1 ++ c :: ws2 ++ w ++ ws3 ++ NUL :: junk) = BUFFER_SIZE ->
  forallb blank ws1 = true -> word_char c = true ->
  forallb blank ws2 = true -> forallb word_char w = true ->
  forallb blank ws3 = true ->
  lowercase_fold c = "h"%char ->
  exists request',
    req_type request' = c /\ request_wf request' /\
    handle_user_input request
      ((ws1 ++ c :: ws2 ++ w ++ ws3 ++ NUL :: junk) :: stdin)
    = after_output (written show_password_menu ++ written show_help_menu)
        <$> handle_user_input request' stdin.
Proof.
  intros Hwf Hlen H1 Hc H2 Hw H3 Hh.
  destruct (handle_user_input_loop_command request stdin ws1 ws2 w ws3 junk c
              Hwf Hlen H1 Hc H2 Hw H3) as [request2 [Ht [Hwf2 [_ Hloop]]]].
  exists request2. split; [exact Ht|]. split; [exact Hwf2|].
  apply handle_user_input_prefix. rewrite (Hloop []), tolower_is_h, Hh.
  reflexivity.
Qed.

Lemma handle_user_input_help_witness :
  exists request',
    req_type request' = "H"%char /\ request_wf request' /\
    handle_user_input request_x_8 [typed_line "H 12"; typed_line "a 6"]
    = after_output (written show_password_menu ++ written show_help_menu)
        <$> handle_user_input request' [typed_line "a 6"].
Proof.
  apply (handle_user_input_help request_x_8 [typed_line "a 6"] []
           (list_ascii_of_string " ") (list_ascii_of_string "12") [LF]
           (replicate 1018 "#"%char) "H"); reflexivity.
Defined.

(** X15. A line of white space alone converts nothing, so the type in
    the record stays what the line before left there.  When that type is
    h or H the help is written once more and the next line is read;
    otherwise the line is refused as invalid input. *)
Theorem handle_user_input_blank_line (request : PasswordRequest)
  (stdin : list (list ascii)) (ws junk : list ascii) :
  request_wf request ->
  List.length (ws ++ NUL :: junk) = BUFFER_SIZE ->
  forallb blank ws = true ->
  exists request',
    req_type request' = req_type request /\ request_wf request' /\
    handle_user_input request ((ws ++ NUL :: junk) :: stdin)
    = if Ascii.eqb (lowercase_fold (req_type request)) "h"
      then after_output (written show_password_menu ++ written show_help_menu)
             <$> handle_user_input request' stdin
      else Some (false, request', stdin,
                 written show_password_menu
                   ++ written (print_with_color (Some invalid_input_text) RED)).
Proof.
  unfold request_wf. intros Hwf Hlen Hws.
  destruct (store_end_string _ _ Hlen) as [junk' [Hstore _]].
  destruct (store_end (req_length request) Hwf) as [l [Hl Hlsize]].
  exists {| req_type := req_type request; req_length := l |}.
  split; [reflexivity|]. split; [exact Hlsize|].
  assert (Hloop : forall out,
    handle_user_input_loop ((ws ++ NUL :: junk) :: stdin) request out
    = if Ascii.eqb (lowercase_fold (req_type request)) "h"
      then handle_user_input_loop stdin
             {| req_type := req_type request; req_length := l |}
             (out ++ written show_password_menu ++ written show_help_menu)
      else Some (EOF, {| req_type := req_type request; req_length := l |}, stdin,
                 out ++ written show_password_menu)).
  { intros out. cbn [handle_user_input_loop].
    rewrite show_password_menu_written at 1.
    rewrite Hstore, (sscanf_blank request ws junk' Hws), Hl. cbn [req_type].
    rewrite tolower_is_h.
    destruct (Ascii.eqb _ _); [now rewrite show_help_menu_written at 1 | reflexivity]. }
  destruct (Ascii.eqb (lowercase_fold (req_type request)) "h") eqn:Eh.
  - apply handle_user_input_prefix. rewrite (Hloop []). reflexivity.
  - unfold handle_user_input. rewrite (Hloop []).
    change (negb (EOF =? 1) && negb (EOF =? 2)) with true. cbv iota.
    change (print_with_color (Some invalid_input_text) RED)
      with (Some (written (print_with_color (Some invalid_input_text) RED))).
    reflexivity.
Qed.

Lemma handle_user_input_blank_line_witness :
  exists request',
    req_type request' = "x"%char /\ request_wf request' /\
    handle_user_input request_x_8 [typed_line "   "]
    = Some (false, request', [],
            written show_password_menu
              ++ written (print_with_color (Some invalid_input_text) RED)).
Proof.
  apply (handle_user_input_blank_line request_x_8 []
           (list_ascii_of_string "   " ++ [LF]) (replicate 1019 "#"%char));
    reflexivity.
Defined.

(* ===================================================================== *)
(** * The loop of the client                                              *)
(* ===================================================================== *)

Lemma command_not_quit (c : ascii) :
  mem c command_codes = true -> keep_generating c "q" = true ->
  mem c type_codes = true.
Proof. each_ascii c; intros H K; try discriminate H; try discriminate K; reflexivity. Qed.

Lemma command_quit (c : ascii) :
  mem c command_codes = true -> keep_generating c "q" = false -> c = "q"%char.
Proof. each_ascii c; intros H K; try discriminate H; try discriminate K; reflexivity. Qed.

(** A request of the declared size, sent whole and received whole. *)
Lemma receive_request_whole (r old : PasswordRequest) :
  request_wf r -> request_wf old ->
  request_datagram r = request_bytes r /\
  receive_request old (RecvDatagram (request_bytes r)) = (true, r).
Proof.
  unfold request_wf. intros Hr Hold.
  assert (Hsize : List.length (request_bytes r) = sizeof_PasswordRequest)
    by (unfold request_bytes, sizeof_PasswordRequest; simpl; now rewrite Hr).
  assert (Hsize' : List.length (request_bytes old) = sizeof_PasswordRequest)
    by (unfold request_bytes, sizeof_PasswordRequest; simpl; now rewrite Hold).
  assert (Htake : take sizeof_PasswordRequest (request_bytes r) = request_bytes r)
    by (apply take_ge; rewrite Hsize; apply Nat.le_refl).
  split; [exact Htake|].
  unfold receive_request, recvfrom. rewrite Htake, received_size_nonneg.
  rewrite drop_ge by (rewrite Hsize, Hsize'; apply Nat.le_refl).
  rewrite app_nil_r. now destruct r.
Qed.

Lemma client_turn_sent (c : client) (p : client_process) :
  ClientSession.main_turn c = Some p ->
  request_wf (cl_request c) ->
  Forall valid_request_datagram (cl_sent c) ->
  request_wf (cl_request (client_of p)) /\
  Forall valid_request_datagram (cl_sent (client_of p)).
Proof.
  intros H Hwf Hsent. unfold ClientSession.main_turn in H.
  destruct (handle_user_input (cl_request c) (cl_stdin c))
    as [[[[valid request] stdin] out]|] eqn:E; [|discriminate].
  destruct (handle_user_input_some _ _ _ _ _ _ E) as [Hlen [_ Hvalid]].
  assert (Hwf' : request_wf request) by (unfold request_wf in *; congruence).
  destruct valid; cbn [negb] in H; [|injection H as <-; now split].
  destruct (Hvalid eq_refl) as [Htype [raw [rest [Hraw Hnum]]]].
  destruct (keep_generating (req_type request) "q") eqn:K; cbn [negb] in H;
    [|injection H as <-; now split].
  destruct (cl_network c) as [|[sent net] network]; [discriminate|].
  destruct (negb (send_request request sent)).
  { destruct (error_handler _); [|discriminate]. injection H as <-. now split. }
  assert (Hd : valid_request_datagram (request_datagram request)).
  { destruct (receive_request_whole request request Hwf' Hwf') as [-> _].
    unfold valid_request_datagram, request_bytes. cbn [request_of_bytes req_type req_length].
    split; [unfold sizeof_PasswordRequest; simpl; now rewrite Hwf'|].
    split; [exact (command_not_quit _ Htype K)|]. now exists raw, rest. }
  assert (Hall : Forall valid_request_datagram (cl_sent c ++ [request_datagram request]))
    by (apply Forall_app; split; [exact Hsent | now constructor]).
  destruct (receive_response (cl_response c) net) as [received response].
  destruct (negb received).
  { destruct (error_handler _); [|discriminate]. injection H as <-. now split. }
  destruct (print_with_color _ GREEN); [|discriminate].
  destruct (print_with_color _ GREEN); [|discriminate].
  injection H as <-. now split.
Qed.

Lemma client_loop_sent (n : nat) (c : client) (p : client_process) :
  ClientSession.main_loop n c = Some p ->
  request_wf (cl_request c) ->
  Forall valid_request_datagram (cl_sent c) ->
  Forall valid_request_datagram (cl_sent (client_of p)).
Proof.
  revert c. induction n as [|n IH]; intros c; simpl.
  - intros [= <-] _ H. exact H.
  - destruct (ClientSession.main_turn c) as [[c'|status c']|] eqn:E; [| |discriminate];
      intros H Hwf Hsent; destruct (client_turn_sent c _ E Hwf Hsent) as [Hwf' Hsent'].
    + exact (IH c' H Hwf' Hsent').
    + injection H as <-. exact Hsent'.
Qed.

(** X16. The client puts on the wire only requests of the protocol: in
    every run of [main] that ISO C defines, looked at after any number
    of turns of the loop and whatever the network does, every datagram
    sent has the 1025 bytes of a request record, a type among
    n, a, m, s, u in lowercase, and a length field holding a terminated
    number from 6 to 32.  A run stops being defined at the first typed
    line with a length of digits only that is larger than INT_MAX
    ([atoi] overflows) or with three words or more ([sscanf] writes into
    the array it reads from); the datagrams sent in the turns before it
    are covered. *)
Theorem client_sends_valid_requests_only (host_found : bool) (created_socket : Z)
  (n : nat) (c : client) (p : client_process) :
  request_wf (cl_request c) ->
  cl_sent c = [] ->
  ClientSession.main host_found created_socket n c = Some p ->
  Forall valid_request_datagram (cl_sent (client_of p)).
Proof.
  intros Hwf Hnone. unfold ClientSession.main.
  destruct (negb host_found).
  { destruct (error_handler _); [|discriminate]. intros [= <-]. simpl.
    rewrite Hnone. constructor. }
  destruct (created_socket <? 0).
  { destruct (error_handler _); [|discriminate]. intros [= <-]. simpl.
    rewrite Hnone. constructor. }
  intros H. apply (client_loop_sent n c p H Hwf). rewrite Hnone. constructor.
Qed.

Lemma client_sends_valid_requests_only_witness :
  exists c',
    ClientSession.main true 3 5 example_client
    = Some (ClientExited ClientSession.EXIT_SUCCESS c') /\
    List.length (cl_sent c') = 1%nat /\
    Forall valid_request_datagram (cl_sent c').
Proof.
  destruct (ClientSession.main true 3 5 example_client) as [[c'|status c']|] eqn:E;
    [vm_compute in E; discriminate E | | vm_compute in E; discriminate E].
  assert (Hs : status = ClientSession.EXIT_SUCCESS /\ List.length (cl_sent c') = 1%nat).
  { vm_compute in E. injection E as <- <-. split; reflexivity. }
  destruct Hs as [-> Hone]. exists c'. split; [reflexivity|]. split; [exact Hone|].
  exact (client_sends_valid_requests_only true 3 5 example_client _ eq_refl eq_refl E).
Defined.

Lemma client_turn_exit (c c' : client) (status : Z) :
  ClientSession.main_turn c = Some (ClientExited status c') ->
  (status = ClientSession.EXIT_SUCCESS /\ req_type (cl_request c') = "q"%char /\
   cl_sent c' = cl_sent c) \/
  status = ClientSession.EXIT_FAILURE.
Proof.
  unfold ClientSession.main_turn.
  destruct (handle_user_input (cl_request c) (cl_stdin c))
    as [[[[valid request] stdin] out]|] eqn:E; [|discriminate].
  destruct (handle_user_input_some _ _ _ _ _ _ E) as [_ [_ Hvalid]].
  destruct valid; cbn [negb]; [|discriminate].
  destruct (Hvalid eq_refl) as [Htype _].
  destruct (keep_generating (req_type request) "q") eqn:K; cbn [negb].
  2:{ intros [= <- <-]. left. split; [reflexivity|].
      split; [exact (command_quit _ Htype K) | reflexivity]. }
  destruct (cl_network c) as [|[sent net] network]; [discriminate|].
  destruct (negb (send_request request sent)).
  { destruct (error_handler _); [|discriminate]. intros [= <- _]. now right. }
  destruct (receive_response (cl_response c) net) as [received response].
  destruct (negb received).
  { destruct (error_handler _); [|discriminate]. intros [= <- _]. now right. }
  destruct (print_with_color _ GREEN); [|discriminate].
  destruct (print_with_color _ GREEN); discriminate.
Qed.

Lemma client_loop_exit (n : nat) (c c' : client) (status : Z) :
  ClientSession.main_loop n c = Some (ClientExited status c') ->
  (status = ClientSession.EXIT_SUCCESS /\ req_type (cl_request c') = "q"%char) \/
  status = ClientSession.EXIT_FAILURE.
Proof.
  revert c. induction n as [|n IH]; intros c; simpl; [discriminate|].
  destruct (ClientSession.main_turn c) as [[c1|status1 c1]|] eqn:E; [| |discriminate].
  - apply IH.
  - intros [= <- <-]. destruct (client_turn_exit _ _ _ E) as [[H1 [H2 _]]|H];
      [left; now split | now right].
Qed.

(** X17. The client leaves [main] with success only on the command q:
    the host was found, the socket was created, and the last request
    read has the lowercase type q.  Every other way out of [main] is
    with EXIT_FAILURE. *)
Theorem client_exits_with_success_on_q_only (host_found : bool)
  (created_socket : Z) (n : nat) (c c' : client) (status : Z) :
  ClientSession.main host_found created_socket n c = Some (ClientExited status c') ->
  (status = ClientSession.EXIT_SUCCESS /\ host_found = true /\
   0 <= created_socket /\ req_type (cl_request c') = "q"%char) \/
  status = ClientSession.EXIT_FAILURE.
Proof.
  unfold ClientSession.main. destruct host_found; cbn [negb].
  2:{ destruct (error_handler _); [|discriminate]. intros [= <- _]. now right. }
  destruct (Z.ltb_spec created_socket 0) as [Hneg|Hpos].
  { destruct (error_handler _); [|discriminate]. intros [= <- _]. now right. }
  intros H. destruct (client_loop_exit _ _ _ _ H) as [[H1 H2]|H1];
    [left; repeat split; assumption | now right].
Qed.

Lemma client_exits_with_success_on_q_only_witness :
  exists c' status,
    ClientSession.main true 3 5 example_client = Some (ClientExited status c') /\
    ((status = ClientSession.EXIT_SUCCESS /\ true = true /\
      0 <= 3 /\ req_type (cl_request c') = "q"%char) \/
     status = ClientSession.EXIT_FAILURE).
Proof.
  destruct (ClientSession.main true 3 5 example_client) as [[c'|status c']|] eqn:E;
    [vm_compute in E; discriminate E | | vm_compute in E; discriminate E].
  exists c', status. split; [reflexivity|].
  exact (client_exits_with_success_on_q_only true 3 5 example_client c' status E).
Defined.

Lemma digits_not_NUL (raw : list ascii) :
  forallb (fun c => mem c digits) raw = true -> Forall (fun c => c <> NUL) raw.
Proof.
  intros H. apply List.Forall_forall. intros c Hc ->.
  rewrite forallb_forall in H. specialize (H NUL Hc). discriminate H.
Qed.

Lemma valid_length_parts (raw : list ascii) :
  valid_length raw = true ->
  forallb (fun c => mem c digits) raw = true /\ 6 <= decimal_value raw <= 32.
Proof.
  unfold valid_length, is_number. intros H.
  apply andb_true_iff in H as [H Hhi]. apply andb_true_iff in H as [H Hlo].
  apply andb_true_iff in H as [_ Hd]. apply Z.leb_le in Hlo, Hhi. now split.
Qed.

(** X18. One exchange, end to end.  When a call of [handle_user_input]
    that ISO C defines (no length of digits only larger than INT_MAX, no
    line of three words or more) lets a request through and it is not
    the command q, the server's turn on the datagram of that request
    answers with one datagram: the record that [generate_password] fills
    for the variant of the type asked for (n, a, m, s, u to NUMERIC,
    ALPHA, MIXED, SECURE, UNAMBIGUOUS) and the length asked for.  The client's turn on that answer shows, in green,
    that password: exactly the length asked for, every character in the
    charset of the variant and, for UNAMBIGUOUS, none an excluded glyph;
    the request went out as typed. *)
Theorem exchange_shows_requested_password (c : client) (r : PasswordRequest)
  (stdin' : list (list ascii)) (out : list ascii)
  (network : list (Z * recv_outcome))
  (server_request : PasswordRequest) (server_response : PasswordResponse)
  (sent : list (list ascii)) (s : rand_state) :
  request_wf (cl_request c) -> response_wf (cl_response c) ->
  request_wf server_request -> response_wf server_response ->
  handle_user_input (cl_request c) (cl_stdin c) = Some (true, r, stdin', out) ->
  keep_generating (req_type r) "q" = true ->
  exists raw pw d s',
    c_str (req_length r) = Some raw /\ valid_length raw = true /\
    Z.of_nat (List.length pw) = decimal_value raw /\
    Forall (fun x => mem x (glyphs_of (variant_of_code (req_type r))) = true) pw /\
    generate_password (resp_password server_response)
      (variant_of_code (req_type r)) (decimal_value raw) s = Some (d, s') /\
    c_str d = Some pw /\
    ServerProgram.main_turn
      {| turn_request := server_request; turn_response := server_response;
         turn_recv := RecvDatagram (request_datagram r); turn_sent := 33 |} sent s
    = Some (Running (sent ++ [d]) s') /\
    (cl_network c = (1025, RecvDatagram d) :: network ->
     exists response,
       c_str (resp_password response) = Some pw /\
       ClientSession.main_turn c
       = Some (ClientRunning
                 {| cl_request := r; cl_response := response;
                    cl_stdin := stdin'; cl_network := network;
                    cl_stdout :=
                      (cl_stdout c ++ out)
                        ++ written (print_with_color
                                      (Some (literal "Password generated: ")) GREEN)
                        ++ (color_code GREEN ++ pw ++ color_code RESET)
                        ++ [LF; LF];
                    cl_sent := cl_sent c ++ [request_datagram r] |})).
Proof.
  intros Hwf Hrwf Hswf Hsrwf Hin Hkeep.
  destruct (handle_user_input_some _ _ _ _ _ _ Hin) as [Hlen [_ Hvalid]].
  destruct (Hvalid eq_refl) as [Htype [raw [rest [Hraw Hnum]]]].
  destruct (valid_length_parts raw Hnum) as [Hd Hrange].
  assert (Hwf' : request_wf r) by (unfold request_wf in *; congruence).
  assert (Hatoi : atoi (req_length r) = Some (decimal_value raw)).
  { rewrite Hraw. apply atoi_string; [exact Hd | unfold INT_MAX; lia]. }
  pose proof Hsrwf as Hsize. unfold response_wf, MAX_PASSWORD_LENGTH in Hsize.
  destruct (handle_password_request_variant r server_response s _ Hatoi ltac:(lia))
    as [pw [s' [Hgen [Hrun [Hstr [Hn Hcs]]]]]].
  set (password := pw ++ NUL :: drop (S (Z.to_nat (decimal_value raw)))
                                     (resp_password server_response)) in *.
  assert (Hpwf : response_wf {| resp_password := password |}).
  { unfold response_wf, sizeof, password. cbn [resp_password].
    unfold sizeof in Hsize. rewrite length_app. cbn [List.length].
    rewrite length_drop. unfold MAX_PASSWORD_LENGTH. lia. }
  exists raw, pw, password, s'.
  split; [rewrite Hraw; apply c_str_string, digits_not_NUL, Hd|].
  split; [exact Hnum|]. split; [exact Hn|]. split; [exact Hcs|].
  split; [exact Hgen|]. split; [exact Hstr|].
  destruct (receive_request_whole r server_request Hwf' Hswf) as [Hdgram Hrecv].
  split.
  - unfold ServerProgram.main_turn. cbn [turn_request turn_recv turn_response turn_sent].
    rewrite Hdgram, Hrecv. cbn [negb]. rewrite Hrun.
    change (negb (send_response {| resp_password := password |} 33)) with false.
    cbv iota.
    destruct (receive_response_whole _ _ Hpwf Hpwf) as [-> _]. reflexivity.
  - intros Hnet. exists {| resp_password := password |}.
    split; [exact Hstr|].
    unfold ClientSession.main_turn. rewrite Hin. cbn [negb]. rewrite Hkeep. cbn [negb].
    rewrite Hnet.
    change (negb (send_request r 1025)) with false. cbv iota.
    destruct (receive_response_whole _ _ Hpwf Hrwf) as [_ Hback].
    cbn [resp_password] in Hback. rewrite Hback. cbn [negb].
    change (print_with_color (Some (literal "Password generated: ")) GREEN)
      with (Some (written (print_with_color
                             (Some (literal "Password generated: ")) GREEN))).
    cbv beta iota.
    unfold print_with_color at 1. unfold printf_sss. cbn [resp_password].
    change (c_str (generate_ansi_color_code GREEN)) with (Some (color_code GREEN)).
    change (c_str (generate_ansi_color_code RESET)) with (Some (color_code RESET)).
    rewrite Hstr. reflexivity.
Qed.

Lemma exchange_shows_requested_password_witness :
  exists r out raw pw d s',
    handle_user_input request_x_8 [typed_line "s 16"] = Some (true, r, [], out) /\
    c_str (req_length r) = Some raw /\ valid_length raw = true /\
    Z.of_nat (List.length pw) = decimal_value raw /\
    Forall (fun x => mem x (glyphs_of SECURE) = true) pw /\
    generate_password (resp_password response_buffer) SECURE 16 example_rand
    = Some (d, s') /\
    c_str d = Some pw /\
    ServerProgram.main_turn
      {| turn_request := request_x_8; turn_response := response_buffer;
         turn_recv := RecvDatagram (request_datagram r); turn_sent := 33 |}
      [] example_rand
    = Some (Running ([] ++ [d]) s').
Proof.
  assert (E : exists r out,
             handle_user_input request_x_8 [typed_line "s 16"]
             = Some (true, r, [], out) /\ req_type r = "s"%char)
    by (eexists _, _; split; [vm_compute; reflexivity | reflexivity]).
  destruct E as [r [out [E Hs]]].
  destruct (exchange_shows_requested_password
              (client_typing ["s 16"%string] []) r [] out []
              request_x_8 response_buffer [] example_rand)
    as [raw [pw [d [s' [H1 [H2 [H3 [H4 [H5 [H6 [H7 _]]]]]]]]]]];
    [reflexivity | reflexivity | reflexivity | reflexivity | exact E
     | rewrite Hs; reflexivity |].
  assert (Hraw : raw = list_ascii_of_string "16").
  { assert (Hl : c_str (req_length r) = Some (list_ascii_of_string "16")).
    { revert E. clear. intros E. vm_compute in E. injection E as <- _.
      reflexivity. }
    congruence. }
  rewrite Hs in H4, H5. rewrite Hraw in H5.
  exists r, out, raw, pw, d, s'. split; [exact E|].
  split; [exact H1|]. split; [exact H2|]. split; [exact H3|].
  split; [exact H4|]. split; [exact H5|]. split; [exact H6 | exact H7].
Defined.

(* ===================================================================== *)
(** * The colours                                                         *)
(* ===================================================================== *)

(** X19. The nine colours have nine different escape sequences, and
    every value outside the enumeration gets the sequence of RESET. *)
Theorem generate_ansi_color_code_distinct :
  (forall a b : textColor,
      BLACK <= a <= RESET -> BLACK <= b <= RESET ->
      generate_ansi_color_code a = generate_ansi_color_code b -> a = b) /\
  (forall c : textColor,
      c < BLACK \/ RESET < c ->
      generate_ansi_color_code c = generate_ansi_color_code RESET).
Proof.
  unfold BLACK, RESET. split.
  - intros a b Ha Hb.
    assert (Ha' : a = 0 \/ a = 1 \/ a = 2 \/ a = 3 \/ a = 4 \/ a = 5 \/ a = 6
                  \/ a = 7 \/ a = 8) by lia.
    assert (Hb' : b = 0 \/ b = 1 \/ b = 2 \/ b = 3 \/ b = 4 \/ b = 5 \/ b = 6
                  \/ b = 7 \/ b = 8) by lia.
    clear Ha Hb.
    repeat (destruct Ha' as [->|Ha']); subst;
      repeat (destruct Hb' as [->|Hb']); subst;
      intros H; try reflexivity; vm_compute in H; discriminate H.
  - intros c Hc. unfold generate_ansi_color_code, BLACK, RED, GREEN, YELLOW, BLUE,
      MAGENTA, CYAN, WHITE, RESET.
    repeat (match goal with
            | |- context [?x =? ?y] =>
                destruct (Z.eqb_spec x y); [lia|]
            end).
    reflexivity.
Qed.

Lemma generate_ansi_color_code_distinct_witness :
  (generate_ansi_color_code RED = generate_ansi_color_code RED -> RED = RED) /\
  generate_ansi_color_code 42 = generate_ansi_color_code RESET.
Proof.
  split.
  - apply (proj1 generate_ansi_color_code_distinct RED RED);
      unfold BLACK, RED, RESET; lia.
  - apply (proj2 generate_ansi_color_code_distinct 42). right. unfold RESET. lia.
Defined.

(* ===================================================================== *)
(** * The two programs together                                           *)
(* ===================================================================== *)


